(** * threatreg: the service documentation generator

  A shallow embedding of [docs/generate_service_docs.py]: the line scanner
  [extract_go_functions], the path classifier [categorize_service_file] and
  the aggregation loop of [scan_service_directory], with the properties the
  specification states about them.

  Python values are modelled as follows.
  - A [str] is a list of Unicode code points ([N]); literals of the source
    are written with [py "..."].
  - List indexing is Python's: an index is an integer ([Z]), a negative
    index counts from the end, an index out of range raises [IndexError].
  - A computation has an [outcome]: it returns a value, raises, or exhausts
    the iteration budget of one of its [while] loops. The budget is an
    artefact of the embedding; the theorems show which budget suffices.
  - What lies outside the program is a parameter: the text that reading a
    path gives or the exception it raises, the exception that printing a
    message raises, if any, what [os.walk] yields, [os.path.relpath]. *)

From Stdlib Require Import ZArith NArith Ascii String List Bool Sorted Lia.
From stdpp Require Import base option list gmap.

Local Open Scope Z_scope.

(** ** Python strings *)

Module Str.

Abbreviation str := (list N).

(** The code points of a literal of the source. *)
Definition py (s : string) : str :=
  List.map N_of_ascii (list_ascii_of_string s).

(** The newline character, as a one-character text. *)
Definition nl : str := [10%N].

(** [str.isspace] on one code point; [str.strip] and the [\s] class of
    [re] (on [str] patterns) both use this predicate. *)
Definition isspace (c : N) : bool :=
  ((9 <=? c) && (c <=? 13) || (28 <=? c) && (c <=? 32) ||
   (c =? 133) || (c =? 160) || (c =? 5760) ||
   (8192 <=? c) && (c <=? 8202) || (c =? 8232) || (c =? 8233) ||
   (c =? 8239) || (c =? 8287) || (c =? 12288))%N.

(** [A-Z], [a-z], [0-9] of the patterns (no flags: ASCII ranges). *)
Definition isupper (c : N) : bool := ((65 <=? c) && (c <=? 90))%N.
Definition islower (c : N) : bool := ((97 <=? c) && (c <=? 122))%N.
Definition isdigit (c : N) : bool := ((48 <=? c) && (c <=? 57))%N.
Definition isalnum (c : N) : bool := isupper c || islower c || isdigit c.

Fixpoint dropwhile {A} (p : A -> bool) (s : list A) : list A :=
  match s with
  | [] => []
  | c :: t => if p c then dropwhile p t else s
  end.

Fixpoint takewhile {A} (p : A -> bool) (s : list A) : list A :=
  match s with
  | [] => []
  | c :: t => if p c then c :: takewhile p t else []
  end.

(** [s.lstrip()], [s.rstrip()], [s.strip()]: the whitespace at the start,
    at the end, at both ends of [s] is removed. *)
Definition lstrip (s : str) : str := dropwhile isspace s.

Fixpoint rstrip (s : str) : str :=
  match s with
  | [] => []
  | c :: t =>
      match rstrip t with
      | [] => if isspace c then [] else [c]
      | r => c :: r
      end
  end.

Definition strip (s : str) : str := rstrip (lstrip s).

(** [s == t]. *)
Fixpoint streq (s t : str) : bool :=
  match s, t with
  | [], [] => true
  | a :: s', b :: t' => (a =? b)%N && streq s' t'
  | _, _ => false
  end.

(** [s.startswith(p)]. *)
Fixpoint startswith (p s : str) : bool :=
  match p, s with
  | [], _ => true
  | a :: p', b :: s' => (a =? b)%N && startswith p' s'
  | _ :: _, [] => false
  end.

(** [s.endswith(p)]. *)
Definition endswith (p s : str) : bool := startswith (rev p) (rev s).

(** [p in s] for strings: [p] occurs in [s] as a substring. *)
Fixpoint contains (p s : str) : bool :=
  startswith p s ||
  match s with
  | [] => false
  | _ :: t => contains p t
  end.

(** [s.count(c)] for a one-character [c]. *)
Fixpoint count (c : N) (s : str) : Z :=
  match s with
  | [] => 0
  | a :: t => (if (a =? c)%N then 1 else 0) + count c t
  end.

(** [s.split(sep)] for a one-character separator: the pieces between the
    separators, one more than there are separators (so never empty). *)
Fixpoint split (sep : N) (s : str) : list str :=
  match s with
  | [] => [[]]
  | c :: t =>
      if (c =? sep)%N then [] :: split sep t
      else match split sep t with
           | [] => [[c]]
           | w :: ws => (c :: w) :: ws
           end
  end.

(** [sep.join(parts)]. *)
Fixpoint join (sep : str) (parts : list str) : str :=
  match parts with
  | [] => []
  | [p] => p
  | p :: ps => p ++ sep ++ join sep ps
  end.

End Str.
Import Str.

(** ** The [re] patterns of the source

    The patterns of the source use literals, character classes, greedy
    repetition of one class, one capturing group and [$]. [run] is a
    backtracking matcher for such patterns: a repetition first takes as many
    characters as it can and gives them back one at a time while the rest of
    the pattern fails, as [re] does. [x+] is written [x x*]. *)

Module Re.

Inductive item : Type :=
| One (p : N -> bool)    (* a literal or a class: one character *)
| Star (p : N -> bool)   (* greedy x* of a one-character x *)
| Mark                     (* a group boundary: "(" or ")" *)
| Eos.                     (* $ without MULTILINE *)

Definition pattern := list item.

Definition lit (s : string) : pattern :=
  List.map (fun c => One (N.eqb c)) (py s).
Definition plus (p : N -> bool) : pattern := [One p; Star p].

(** [$]: at the end of the string, or just before a newline that ends it. *)
Definition at_eos (s : str) : bool :=
  match s with
  | [] => true
  | [c] => (c =? 10)%N
  | _ => false
  end.

(** [run pat s marks]: match [pat] at the start of [s]. The result is the
    text left after the match and the texts left at each group boundary
    passed (latest first). *)
Fixpoint run (pat : pattern) (s : str) (marks : list str)
  : option (list str * str) :=
  match pat with
  | [] => Some (marks, s)
  | One p :: pat' =>
      match s with
      | c :: t => if p c then run pat' t marks else None
      | [] => None
      end
  | Star p :: pat' =>
      (fix star (s : str) : option (list str * str) :=
         match s with
         | c :: t =>
             if p c then
               match star t with
               | Some r => Some r
               | None => run pat' s marks
               end
             else run pat' s marks
         | [] => run pat' s marks
         end) s
  | Mark :: pat' => run pat' s (s :: marks)
  | Eos :: pat' => if at_eos s then run pat' s marks else None
  end.

(** [re.match(pat, s)]: the text after the match and the group
    boundaries, or [None]. *)
Definition rmatch (pat : pattern) (s : str) : option (list str * str) :=
  run pat s [].

(** The truth value of the result of [re.match]. *)
Definition matched (m : option (list str * str)) : bool :=
  match m with
  | Some _ => true
  | None => false
  end.

(** [m.group(1)] of a pattern with one group: the text between the two
    boundaries. *)
Definition group1 (m : list str * str) : str :=
  match fst m with
  | [close; open] => List.firstn (length open - length close) open
  | _ => []
  end.

(** [re.sub(pat, repl, s)]: the matches are searched from left to right;
    each is replaced by [repl] and the search goes on after it (one
    character further after an empty match). [skip] counts the characters
    of the current match still to pass. *)
Fixpoint sub_from (pat : pattern) (repl : str) (s : str) (skip : nat) : str :=
  match skip with
  | S n =>
      match s with
      | _ :: t => sub_from pat repl t n
      | [] => []
      end
  | O =>
      match run pat s [] with
      | Some (_, rest) =>
          match (length s - length rest)%nat, s with
          | O, c :: t => repl ++ c :: sub_from pat repl t 0
          | S n, _ :: t => repl ++ sub_from pat repl t n
          | _, [] => repl
          end
      | None =>
          match s with
          | c :: t => c :: sub_from pat repl t 0
          | [] => []
          end
      end
  end.

Definition sub (pat : pattern) (repl : str) (s : str) : str :=
  sub_from pat repl s 0.

End Re.

(** The four patterns of [extract_go_functions]. *)

(** [r'func\s+[A-Z]'] *)
Definition pat_func_upper : Re.pattern :=
  Re.lit "func" ++ Re.plus isspace ++ [Re.One isupper].

(** [r'func\s+(G)'] with the group [G = [A-Z][a-zA-Z0-9]*] *)
Definition pat_func_name : Re.pattern :=
  Re.lit "func" ++ Re.plus isspace ++
  [Re.Mark; Re.One isupper; Re.Star isalnum; Re.Mark].

(** [r'\s+'] *)
Definition pat_spaces : Re.pattern := Re.plus isspace.

(** [r'\s*{\s*$'] *)
Definition pat_brace_end : Re.pattern :=
  [Re.Star isspace] ++ Re.lit "{" ++ [Re.Star isspace; Re.Eos].

(** ** Outcomes of a computation *)

Inductive exn : Type :=
| IndexError | KeyError      (* raised by indexing *)
| UnicodeEncodeError | OSError.  (* raised by [print] *)

Inductive outcome (A : Type) : Type :=
| Done (a : A)        (* the computation returns [a] *)
| Raised (e : exn)    (* it raises *)
| Timeout.            (* a loop used up its iteration budget *)

Arguments Done {A} a.
Arguments Raised {A} e.
Arguments Timeout {A}.

Definition bind {A B} (m : outcome A) (f : A -> outcome B) : outcome B :=
  match m with
  | Done a => f a
  | Raised e => Raised e
  | Timeout => Timeout
  end.

Notation "'let*' x := m 'in' k" := (bind m (fun x => k))
  (at level 10, x name, m at level 100, k at level 200).

(** [len(l)] and [l[i]]. *)
Definition len {A} (l : list A) : Z := Z.of_nat (length l).

Definition getitem {A} (l : list A) (i : Z) : outcome A :=
  let i' := if i <? 0 then i + len l else i in
  if (i' <? 0) || (len l <=? i') then Raised IndexError
  else match l !! Z.to_nat i' with
       | Some x => Done x
       | None => Raised IndexError
       end.

(** ** [extract_go_functions] *)

(** The dictionary built for one function. *)
Record func_info : Type := FuncInfo {
  name : str;
  signature : str;
  documentation : list str;
  line_number : Z
}.

(** The backward loop of lines 51-64: from line [j] upwards, comment lines
    are put in front of [docs], blank lines are passed, anything else ends
    the loop. *)
Fixpoint collect_docs (fuel : nat) (lines : list str) (j : Z)
    (docs : list str) : outcome (list str) :=
  match fuel with
  | O => Timeout
  | S fuel =>
      if j >=? 0 then
        let* l := getitem lines j in
        if startswith (py "//") (strip l) || streq (strip l) (py "") then
          if startswith (py "//") (strip l) then
            let doc_line := strip (drop 2 (strip l)) in
            collect_docs fuel lines (j - 1) (doc_line :: docs)
          else if streq (strip l) (py "") then
            collect_docs fuel lines (j - 1) docs
          else Done docs
        else Done docs
      else Done docs
  end.

(** The loop of lines 90-92: the first line from [next_k] on that is not
    blank (or [len(lines)]). *)
Fixpoint skip_blank (fuel : nat) (lines : list str) (next_k : Z)
  : outcome Z :=
  match fuel with
  | O => Timeout
  | S fuel =>
      if next_k <? len lines then
        let* l := getitem lines next_k in
        if streq (strip l) (py "") then skip_blank fuel lines (next_k + 1)
        else Done next_k
      else Done next_k
  end.

(** The forward loop of lines 73-96; it returns [signature_lines].
    ([brace_count] is written and never read; it is left out.) *)
Fixpoint scan_signature (fuel budget : nat) (lines : list str) (i k : Z)
    (signature_lines : list str) (paren_count : Z) (in_func : bool)
  : outcome (list str) :=
  match fuel with
  | O => Timeout
  | S fuel =>
      if k <? len lines then
        let* l := getitem lines k in
        let curr_line := strip l in
        let in_func :=
          if negb in_func && startswith (py "func ") curr_line then true
          else in_func in
        if in_func then
          let signature_lines := signature_lines ++ [rstrip l] in
          let paren_count :=
            paren_count + (count 40 curr_line - count 41 curr_line) in
          if contains (py "{") curr_line then Done signature_lines
          else if (paren_count =? 0) && (k >? i) then
            let* next_k := skip_blank budget lines (k + 1) in
            if next_k <? len lines then
              let* l' := getitem lines next_k in
              if startswith (py "{") (strip l') then Done signature_lines
              else scan_signature fuel budget lines i (k + 1)
                     signature_lines paren_count in_func
            else scan_signature fuel budget lines i (k + 1)
                   signature_lines paren_count in_func
          else scan_signature fuel budget lines i (k + 1)
                 signature_lines paren_count in_func
        else scan_signature fuel budget lines i (k + 1)
               signature_lines paren_count in_func
      else Done signature_lines
  end.

(** The test of line 48. *)
Definition is_candidate (line : str) : bool :=
  startswith (py "func ") line && Re.matched (Re.rmatch pat_func_upper line).

(** Lines 98-115: what is made of [signature_lines]. *)
Definition build_info (signature_lines docs : list str) (i : Z)
  : option func_info :=
  let full_signature := strip (join (py " ") signature_lines) in
  match Re.rmatch pat_func_name full_signature with
  | Some name_match =>
      let func_name := Re.group1 name_match in
      let clean_signature := Re.sub pat_spaces (py " ") full_signature in
      let clean_signature := Re.sub pat_brace_end (py "") clean_signature in
      Some (FuncInfo func_name clean_signature docs (i + 1))
  | None => None
  end.

(** The main loop of lines 44-117. *)
Fixpoint scan_lines (fuel budget : nat) (lines : list str) (i : Z)
    (functions : list func_info) : outcome (list func_info) :=
  match fuel with
  | O => Timeout
  | S fuel =>
      if i <? len lines then
        let* l := getitem lines i in
        let line := strip l in
        if is_candidate line then
          let* docs := collect_docs budget lines (i - 1) [] in
          let* signature_lines := scan_signature budget budget lines i i [] 0 false in
          match build_info signature_lines docs i with
          | Some info =>
              scan_lines fuel budget lines (i + 1) (functions ++ [info])
          | None => scan_lines fuel budget lines (i + 1) functions
          end
        else scan_lines fuel budget lines (i + 1) functions
      else Done functions
  end.

(** Lines 41-119, from the text read. *)
Definition extract_text (budget : nat) (content : str)
  : outcome (list func_info) :=
  scan_lines budget budget (split 10 content) 0 [].

(** What [open] and [read] (lines 31-32) give for a path: the text,
    decoded and with the line ends translated to the newline character,
    or an exception, of which [e] is the text. *)
Inductive read_result : Type :=
| ReadText (content : str)
| ReadError (e : str).

(** [print(message)]. [stdout] gives the exception that writing the
    message raises, if any: [UnicodeEncodeError] when the encoding of the
    output cannot represent a character of the message, [OSError] when the
    output cannot be written. What is written is not kept. *)
Definition print (stdout : str -> option exn) (message : str)
  : outcome unit :=
  match stdout message with
  | None => Done tt
  | Some e => Raised e
  end.

(** The message of line 34. *)
Definition error_message (file_path e : str) : str :=
  py "Error reading " ++ file_path ++ py ": " ++ e.

(** [extract_go_functions(file_path)]: the [except] branch prints the
    message and returns the empty list; an exception of that [print] is
    not caught. *)
Definition extract_go_functions (fs : str -> read_result)
    (stdout : str -> option exn) (budget : nat) (file_path : str)
  : outcome (list func_info) :=
  match fs file_path with
  | ReadError e =>
      let* printed := print stdout (error_message file_path e) in
      Done []
  | ReadText content => extract_text budget content
  end.

(** ** [pathlib.Path] on a POSIX system

    [Path(s)] splits [s] at the slashes; empty components and [.] are
    dropped, and a path that starts with a slash has its root as first
    part. [stem] is that of Python 3.11, where a name that ends in a dot
    has no suffix. *)

Module PosixPath.

Definition slash : N := 47.
Definition dot : N := 46.

(** The root: [//] for exactly two leading slashes, [/] for any other
    number of them, nothing for a relative path. *)
Definition root (s : str) : str :=
  if startswith [slash] s then
    if (length s - length (dropwhile (N.eqb slash) s) =? 2)%nat
    then [slash; slash] else [slash]
  else [].

Definition components (s : str) : list str :=
  List.filter (fun x => negb (streq x []) && negb (streq x [dot]))
    (split slash (dropwhile (N.eqb slash) s)).

(** [Path(s).parts] *)
Definition parts (s : str) : list str :=
  match root s with
  | [] => components s
  | r => r :: components s
  end.

(** [Path(s).name]: the last component, if any. *)
Definition name (s : str) : str := List.last (components s) [].

(** [s.rfind(c)]: the index of the last [c] in [s], or -1. *)
Fixpoint find_last (c : N) (s : str) (pos found : Z) : Z :=
  match s with
  | [] => found
  | a :: t => find_last c t (pos + 1) (if (a =? c)%N then pos else found)
  end.

Definition rfind (c : N) (s : str) : Z := find_last c s 0 (-1).

(** [Path(s).stem]: the name without its last suffix. *)
Definition stem (s : str) : str :=
  let name := name s in
  let i := rfind dot name in
  if (0 <? i) && (i <? Z.of_nat (length name) - 1)
  then List.firstn (Z.to_nat i) name
  else name.

(** [os.path.join(a, b)] *)
Definition join (a b : str) : str :=
  if startswith [slash] b then b
  else if streq a [] || endswith [slash] a then a ++ b
  else a ++ [slash] ++ b.

End PosixPath.

(** ** [categorize_service_file] *)

(** [d.get(key, default)] for a dictionary written as a literal. *)
Fixpoint dict_get (d : list (str * str)) (key default : str) : str :=
  match d with
  | [] => default
  | (k, v) :: d' => if streq k key then v else dict_get d' key default
  end.

Definition category_map : list (str * str) :=
  [ (py "control", py "Control Management");
    (py "domain", py "Domain Management");
    (py "instance", py "Instance Management");
    (py "product", py "Product Management");
    (py "threat", py "Threat Management");
    (py "relationship", py "Relationship Management");
    (py "tag", py "Tag Management");
    (py "threat_resolution", py "Threat Resolution Management") ].

Definition categorize_service_file (file_path : str) : str :=
  if existsb (streq (py "threat_pattern")) (PosixPath.parts file_path) then
    let filename := PosixPath.stem file_path in
    if contains (py "pattern_condition") filename then
      py "Threat Pattern Conditions"
    else if contains (py "instance_threat_pattern") filename then
      py "Instance Threat Pattern Evaluation"
    else py "Threat Pattern Management"
  else
    let filename := PosixPath.stem file_path in
    dict_get category_map filename (py "Miscellaneous").

(** ** [scan_service_directory] *)

(** [categories]: for each category, the functions of each of its files.
    A Python dictionary also keeps the order in which its keys were put
    in; that order is not modelled, the report sorts the keys. *)
Abbreviation index := (gmap str (gmap str (list func_info))).

(** The test of line 175 on a file name. *)
Definition is_go_source (file : str) : bool :=
  endswith (py ".go") file && negb (endswith (py "_test.go") file).

Section Scan.

(** The file system: what reading a path gives. *)
Variable fs : str -> read_result.
(** The standard output: the exception that printing a message raises,
    if any. *)
Variable stdout : str -> option exn.
(** [os.path.relpath]. *)
Variable relpath : str -> str -> str.
(** The iteration budget given to each call of the extractor. *)
Variable budget : nat.

(** Lines 181-187: the functions of one file are put in the index. *)
Definition add_file (categories : index) (category rel_path : str)
    (functions : list func_info) : outcome index :=
  match functions with
  | [] => Done categories
  | _ :: _ =>
      let categories :=
        match categories !! category with
        | None => <[category := ∅]> categories
        | Some _ => categories
        end in
      match categories !! category with
      | Some bucket =>
          Done (<[category := <[rel_path := functions]> bucket]> categories)
      | None => Raised KeyError
      end
  end.

(** The inner loop (lines 174-187) over the files of one directory. *)
Fixpoint scan_files (service_dir root : str) (files : list str)
    (categories : index) : outcome index :=
  match files with
  | [] => Done categories
  | file :: files' =>
      if is_go_source file then
        let file_path := PosixPath.join root file in
        let category := categorize_service_file file_path in
        let* functions := extract_go_functions fs stdout budget file_path in
        let* categories :=
          add_file categories category (relpath file_path service_dir)
            functions in
        scan_files service_dir root files' categories
      else scan_files service_dir root files' categories
  end.

(** The outer loop (line 173) over what [os.walk] yields: the directories
    with their files. *)
Fixpoint scan_dirs (service_dir : str) (walk : list (str * list str))
    (categories : index) : outcome index :=
  match walk with
  | [] => Done categories
  | (root, files) :: walk' =>
      let* categories := scan_files service_dir root files categories in
      scan_dirs service_dir walk' categories
  end.

Definition scan_service_directory (service_dir : str)
    (walk : list (str * list str)) : outcome index :=
  scan_dirs service_dir walk ∅.

End Scan.

(** ** The counts of the report

    Lines 201-202 and 241 (and 340-341, 348 of [main]): the sums run over
    the values of the dictionaries; the order does not matter for a sum. *)

(** [sum(len(funcs) for funcs in categories[category].values())] *)
Definition func_count (cat_files : gmap str (list func_info)) : Z :=
  map_fold (fun _ funcs acc => len funcs + acc) 0 cat_files.

(** [sum(len(funcs) for cat_files in categories.values()
         for funcs in cat_files.values())] *)
Definition total_functions (categories : index) : Z :=
  map_fold (fun _ cat_files acc => func_count cat_files + acc) 0 categories.

(** ** The scanner as functions of the lines

    What the three loops compute, by recursion on the lines they visit.
    [scan_lines_spec] below shows that the loops return these values. *)

Definition is_comment (l : str) : bool := startswith (py "//") (strip l).
Definition is_blank (l : str) : bool := streq (strip l) (py "").
Definition doc_text (l : str) : str := strip (drop 2 (strip l)).

(** [above]: the lines before the declaration, the nearest first. *)
Fixpoint docs_above (above : list str) (docs : list str) : list str :=
  match above with
  | [] => docs
  | l :: above' =>
      if is_comment l then docs_above above' (doc_text l :: docs)
      else if is_blank l then docs_above above' docs
      else docs
  end.

Definition next_is_brace (rest : list str) : bool :=
  match dropwhile is_blank rest with
  | l :: _ => startswith (py "{") (strip l)
  | [] => false
  end.

(** [rest]: the lines from the current one on; [first]: the current line
    is the declaration line. *)
Fixpoint sig_scan (rest : list str) (first : bool) (sig : list str)
    (paren : Z) (in_func : bool) : list str :=
  match rest with
  | [] => sig
  | l :: rest' =>
      let in_func :=
        if negb in_func && startswith (py "func ") (strip l) then true
        else in_func in
      if in_func then
        let sig := sig ++ [rstrip l] in
        let paren := paren + (count 40 (strip l) - count 41 (strip l)) in
        if contains (py "{") (strip l) then sig
        else if (paren =? 0) && negb first && next_is_brace rest' then sig
        else sig_scan rest' false sig paren in_func
      else sig_scan rest' false sig paren in_func
  end.

(** The record made for the declaration at index [i], if any. *)
Definition info_at (lines : list str) (i : nat) : option func_info :=
  build_info (sig_scan (drop i lines) true [] 0 false)
    (docs_above (rev (take i lines)) []) (Z.of_nat i).

(** The records of the lines [rest], which start at index [k]. *)
Fixpoint infos_from (lines : list str) (k : nat) (rest : list str)
  : list func_info :=
  match rest with
  | [] => []
  | l :: rest' =>
      (if is_candidate (strip l) then option_list (info_at lines k) else [])
      ++ infos_from lines (S k) rest'
  end.

Definition infos (content : str) : list func_info :=
  let lines := split 10 content in infos_from lines 0 lines.

(** * Definitions used in the statements *)

(** ** What the patterns and the substitutions compute *)

(** What follows [func] and the whitespace after it, if [s] starts so. *)
Definition after_func (s : str) : option str :=
  if startswith (py "func") s then
    match drop 4 s with
    | c :: r => if isspace c then Some (dropwhile isspace r) else None
    | [] => None
    end
  else None.

(** Each run of whitespace becomes one space: a whitespace character is
    kept, as a space, only if it is the last of its run. *)
Fixpoint collapse (s : str) : str :=
  match s with
  | [] => []
  | c :: t =>
      if isspace c then
        match t with
        | c' :: _ => if isspace c' then collapse t else 32%N :: collapse t
        | [] => [32%N]
        end
      else c :: collapse t
  end.

(** [s] is whitespace, an opening brace, whitespace. *)
Definition brace_tail (s : str) : bool :=
  match dropwhile isspace s with
  | c :: r => (123 =? c)%N && streq (dropwhile isspace r) []
  | [] => false
  end.

(** The text before the first place where such a tail starts. *)
Fixpoint strip_brace (s : str) : str :=
  if brace_tail s then []
  else match s with
       | [] => []
       | c :: t => c :: strip_brace t
       end.

(** Whitespace normalisation: the text is trimmed and each run of
    whitespace in it becomes one space. *)
Definition normalize_ws (s : str) : str := collapse (strip s).

(** Every whitespace character of [s] is a space, and no two are
    adjacent. *)
Fixpoint single_spaced (s : str) : bool :=
  match s with
  | [] => true
  | c :: t =>
      (if isspace c then
         (c =? 32)%N &&
         match t with
         | c' :: _ => negb (isspace c')
         | [] => true
         end
       else true) && single_spaced t
  end.

(** ** Lines above and below a declaration *)

(** The 1-based numbers of the declaration lines among [rest], which
    starts at index [k]. *)
Fixpoint decl_lines (k : nat) (rest : list str) : list Z :=
  match rest with
  | [] => []
  | l :: rest' =>
      (if is_candidate (strip l) then [Z.of_nat k + 1] else [])
      ++ decl_lines (S k) rest'
  end.

(** A line that is neither a comment nor blank. *)
Definition other_line (x : str) : bool :=
  negb (is_comment x) && negb (is_blank x).

(** The comment and blank lines directly above a declaration, the
    nearest first; [above] are all the lines above it, the nearest
    first. *)
Definition doc_block (above : list str) : list str :=
  takewhile (fun x => is_comment x || is_blank x) above.


(** ** Categories and entries of the index *)

(** The twelve labels. *)
Definition category_labels : list str :=
  [ py "Threat Pattern Conditions";
    py "Instance Threat Pattern Evaluation";
    py "Threat Pattern Management";
    py "Control Management";
    py "Domain Management";
    py "Instance Management";
    py "Product Management";
    py "Threat Management";
    py "Relationship Management";
    py "Tag Management";
    py "Threat Resolution Management";
    py "Miscellaneous" ].

(** A segment of the path is the name of the sub-area. *)
Definition in_sub_area (p : str) : Prop :=
  In (py "threat_pattern") (PosixPath.parts p).

(** [w] occurs in [s]. *)
Definition substring (w s : str) : Prop := exists a b, s = a ++ w ++ b.

(** The texts of [l] are all different. *)
Fixpoint all_different (l : list str) : bool :=
  match l with
  | [] => true
  | x :: t => negb (existsb (streq x) t) && all_different t
  end.

(** Every category of the index has a file, and every file of the index
    has a function. *)
Definition populated (categories : index) : Prop :=
  forall cat bucket, categories !! cat = Some bucket ->
    (exists path fns, bucket !! path = Some fns /\ fns <> []) /\
    (forall path fns, bucket !! path = Some fns -> fns <> []).

(** The message for every source file of [walk] that cannot be read can
    be printed. *)
Definition quiet_errors (fs : str -> read_result)
    (stdout : str -> option exn) (walk : list (str * list str)) : Prop :=
  forall root files file e,
    In (root, files) walk -> In file files -> is_go_source file = true ->
    fs (PosixPath.join root file) = ReadError e ->
    stdout (error_message (PosixPath.join root file) e) = None.

(** The entry [fns] under [cat] and [rp] is what the extractor returns for
    a source file of [walk], and it is not empty. *)
Definition from_walk (fs : str -> read_result) (stdout : str -> option exn) (relpath : str -> str -> str)
    (budget : nat) (service_dir : str) (walk : list (str * list str))
    (cat rp : str) (fns : list func_info) : Prop :=
  exists root files file,
    In (root, files) walk /\ In file files /\ is_go_source file = true /\
    cat = categorize_service_file (PosixPath.join root file) /\
    rp = relpath (PosixPath.join root file) service_dir /\
    extract_go_functions fs stdout budget (PosixPath.join root file) = Done fns /\
    fns <> [].

(** Every entry of the index is such an entry. *)
Definition entries_from (fs : str -> read_result) (stdout : str -> option exn)
    (relpath : str -> str -> str) (budget : nat) (service_dir : str)
    (walk : list (str * list str)) (categories : index) : Prop :=
  forall cat bucket rp fns,
    categories !! cat = Some bucket -> bucket !! rp = Some fns ->
    from_walk fs stdout relpath budget service_dir walk cat rp fns.

(** No other source file of [walk] has the category and the relative
    path of [file_path]. *)
Definition sole_source (relpath : str -> str -> str) (service_dir : str)
    (walk : list (str * list str)) (file_path : str) : Prop :=
  forall root files file,
    In (root, files) walk -> In file files -> is_go_source file = true ->
    categorize_service_file (PosixPath.join root file)
      = categorize_service_file file_path ->
    relpath (PosixPath.join root file) service_dir
      = relpath file_path service_dir ->
    PosixPath.join root file = file_path.

(** The index has an entry under [cat] and [rp]. *)
Definition has_entry (categories : index) (cat rp : str) : Prop :=
  exists bucket fns, categories !! cat = Some bucket /\ bucket !! rp = Some fns.

(** ** Four claims as the specification states them *)


(** C8 as the specification states it: an extraction that fails is
    handled by leaving the record out. The extraction of the declaration
    of line [i] fails when no line from it on has the opening brace. *)
Definition failures_omitted (budget : nat) (content : str) (i : nat)
  : Prop :=
  (length (split 10 content) < budget)%nat ->
  (exists l, split 10 content !! i = Some l /\ is_candidate (strip l) = true) ->
  (forall l', In l' (drop i (split 10 content)) ->
     contains (py "{") l' = false) ->
  exists rs,
    extract_text budget content = Done rs /\
    forall r, In r rs -> line_number r <> Z.of_nat i + 1.

(** C2 as the specification states it: the signature of a declaration
    line that ends in the opening brace has no brace in it and is the
    normalised text before that brace. *)
Definition one_line_no_brace (budget : nat) (content : str) (i : nat)
    (l body : str) : Prop :=
  (length (split 10 content) < budget)%nat ->
  split 10 content !! i = Some l -> is_candidate (strip l) = true ->
  rstrip l = body ++ py "{" ->
  exists rs r,
    extract_text budget content = Done rs /\ In r rs /\
    line_number r = Z.of_nat i + 1 /\
    contains (py "{") (signature r) = false /\
    signature r = normalize_ws body.

(** C7 as the specification states it: in the sub-area three substrings of
    the stem give three labels and every other stem gives a fourth, and
    each of the four labels is the label of some file of the sub-area. *)
Definition three_stem_patterns : Prop :=
  exists s1 s2 s3 l1 l2 l3 l4 : str,
    List.NoDup [l1; l2; l3; l4] /\
    (forall p, in_sub_area p ->
       categorize_service_file p =
       if contains s1 (PosixPath.stem p) then l1
       else if contains s2 (PosixPath.stem p) then l2
       else if contains s3 (PosixPath.stem p) then l3
       else l4) /\
    (forall l, In l [l1; l2; l3; l4] ->
       exists p, in_sub_area p /\ categorize_service_file p = l).

(** ** Sample inputs *)

(** A text that is no Go source: parentheses and braces that do not
    match. *)
Definition broken_text : str :=
  py "func Broken((a int" ++ nl ++ py "}}} ) func" ++ nl ++ py "{".

(** Two functions, one after the other. *)
Definition two_decls : str :=
  py "func A() {" ++ nl ++ py "}" ++ nl ++ py "func B() {" ++ nl ++ py "}".

(** A function whose name starts with a lowercase letter. *)
Definition lower_decl : str :=
  py "func getUser(id int) error {" ++ nl ++ py "}".

(** The scenario of the specification: a comment line and the
    declaration of [GetUser]. *)
Definition get_user_text : str :=
  py "// Returns the user by ID." ++ nl ++
  py "func GetUser(id int) (" ++ py "*User, error) {".

(** A comment block that two blank lines separate from its function. *)
Definition doc_gap_pre : list str := [py "package service"].
Definition doc_gap_comments : list str :=
  [py "// Get returns the thing."; py "  // It may fail."].
Definition doc_gap_blanks : list str := [py ""; py "  "].
Definition doc_gap_text : str :=
  join nl (doc_gap_pre ++ doc_gap_comments ++ doc_gap_blanks ++
           [py "func Get(id int) error {"; py "}"]).

(** A text cut off in the middle of a parameter list. *)
Definition truncated_text : str :=
  py "package svc" ++ nl ++ py "func Load(path string,".


(** A declaration over two lines, without closing parenthesis or brace. *)
Definition open_decl : str :=
  py "func Open(a int," ++ nl ++ py "   b  string" ++ nl.

(** A parameter whose type has braces. *)
Definition interface_decl : str := py "func Put(v interface{}) error {".

(** A declaration with runs of spaces. *)
Definition spaced_decl : str :=
  py "  func  Add(a,  b int)   int   {  " ++ nl ++ py "}".

(** A text without a declaration. *)
Definition comments_only : str :=
  py "// package notes" ++ nl ++ nl ++ py "var funcTable = 3" ++ nl.

(** A documented function directly followed by another one. *)
Definition adjacent_decls : str :=
  py "// A does a." ++ nl ++ py "func A() {" ++ nl ++ py "}" ++ nl ++
  py "func B() {" ++ nl ++ py "}".

(** A declaration with one parameter on each line. *)
Definition wrapped_decl : str :=
  py "func Create(" ++ nl ++ py "    name string," ++ nl ++
  py "    size int," ++ nl ++ py ") (Item, error) {" ++ nl ++ py "}".

(** A name with an underscore, and a second line that starts with
    letters. *)
Definition underscore_decl : str :=
  py "func Get_User" ++ nl ++ py "Names() {".

(** The opening brace on a line of its own, after blank lines. *)
Definition allman_decl : str :=
  py "func  Run(a int)  error" ++ nl ++ py "  " ++ nl ++ nl ++
  py "  {" ++ nl ++ py "}".

(** A file system with a source file that has a function, one that has
    none, and no other file that can be read. *)
Definition demo_fs (p : str) : read_result :=
  if streq p (py "svc/domain.go") then
    ReadText (py "// Get it." ++ nl ++ py "func Get() {" ++ nl ++ py "}")
  else if streq p (py "svc/notes.go") then ReadText (py "// nothing here")
  else ReadError (py "[Errno 2] No such file or directory").

(** An output that takes ASCII only. *)
Definition demo_stdout (message : str) : option exn :=
  if forallb (fun c => (c <? 128)%N) message then None
  else Some UnicodeEncodeError.

(** One directory: the two source files, a test file, a file that is
    not there and a file that is no Go source. *)
Definition demo_walk : list (str * list str) :=
  [ (py "svc",
     [py "domain.go"; py "notes.go"; py "domain_test.go"; py "gone.go";
      py "README.md"]) ].

(** ** Proof automation *)

(** Case analysis on the integer comparisons of the goal. *)
Ltac zcases :=
  repeat match goal with
  | |- context [(?a <? ?b)] => destruct (Z.ltb_spec a b); try lia
  | |- context [(?a <=? ?b)] => destruct (Z.leb_spec a b); try lia
  | |- context [(?a >=? ?b)] =>
      rewrite (Z.geb_leb a b); destruct (Z.leb_spec b a); try lia
  | |- context [(?a >? ?b)] =>
      rewrite (Z.gtb_ltb a b); destruct (Z.ltb_spec b a); try lia
  end.

(** * Properties *)

(** ** Indexing and the loops *)

Lemma getitem_nat {A} (l : list A) (k : nat) (x : A) :
  l !! k = Some x -> getitem l (Z.of_nat k) = Done x.
Proof.
  intros H. pose proof (lookup_lt_Some _ _ _ H) as Hlt.
  unfold getitem, len. zcases. simpl.
  rewrite Nat2Z.id, H. reflexivity.
Qed.

Lemma getitem_out {A} (l : list A) (i : Z) :
  len l <= i -> getitem l i = Raised IndexError.
Proof.
  intros H. unfold getitem. unfold len in *. zcases. reflexivity.
Qed.

Lemma getitem_negative {A} (l : list A) (k : nat) (x : A) :
  l !! k = Some x -> getitem l (Z.of_nat k - len l) = Done x.
Proof.
  intros H. pose proof (lookup_lt_Some _ _ _ H) as Hlt.
  unfold getitem, len. zcases. simpl.
  replace (Z.of_nat k - Z.of_nat (length l) + Z.of_nat (length l))
    with (Z.of_nat k) by lia.
  rewrite Nat2Z.id, H. reflexivity.
Qed.

Lemma takewhile_dropwhile {A} (p : A -> bool) (l : list A) :
  takewhile p l ++ dropwhile p l = l.
Proof.
  induction l as [|a l IH]; simpl; [reflexivity|].
  destruct (p a); simpl; [now rewrite IH | reflexivity].
Qed.

Lemma lookup_after_takewhile {A} (p : A -> bool) (l : list A) :
  l !! length (takewhile p l) = head (dropwhile p l).
Proof.
  induction l as [|a l IH]; simpl; [reflexivity|].
  destruct (p a); simpl; [exact IH | reflexivity].
Qed.

Lemma length_takewhile_le {A} (p : A -> bool) (l : list A) :
  (length (takewhile p l) <= length l)%nat.
Proof.
  induction l as [|a l IH]; simpl; [lia|]. destruct (p a); simpl; lia.
Qed.

Section Loops.

Variable lines : list str.

Lemma collect_docs_spec (k : nat) :
  forall (fuel : nat) (docs : list str),
    (k <= length lines)%nat -> (k < fuel)%nat ->
    collect_docs fuel lines (Z.of_nat k - 1) docs =
    Done (docs_above (rev (take k lines)) docs).
Proof.
  induction k as [|k IH]; intros fuel docs Hk Hf.
  - destruct fuel; [lia|]. reflexivity.
  - destruct fuel as [|fuel]; [lia|].
    destruct (lookup_lt_is_Some_2 lines k) as [l Hl]; [lia|].
    rewrite (take_S_r _ _ _ Hl), rev_app_distr. cbn [rev app docs_above].
    cbn [collect_docs]. zcases.
    replace (Z.of_nat (S k) - 1) with (Z.of_nat k) by lia.
    rewrite (getitem_nat _ _ _ Hl). cbn [bind].
    fold (is_comment l) (is_blank l) (doc_text l).
    destruct (is_comment l); cbn [orb].
    + apply IH; lia.
    + destruct (is_blank l); [apply IH; lia | reflexivity].
Qed.

Lemma skip_blank_spec :
  forall (fuel k : nat),
    (k <= length lines)%nat -> (length lines - k < fuel)%nat ->
    skip_blank fuel lines (Z.of_nat k) =
    Done (Z.of_nat (k + length (takewhile is_blank (drop k lines)))).
Proof.
  induction fuel as [|fuel IH]; intros k Hk Hf; [lia|].
  cbn [skip_blank]. unfold len.
  destruct (Z.ltb_spec (Z.of_nat k) (Z.of_nat (length lines))) as [Hlt|Hge].
  - destruct (lookup_lt_is_Some_2 lines k) as [l Hl]; [lia|].
    rewrite (getitem_nat _ _ _ Hl). cbn [bind].
    rewrite (drop_S _ _ _ Hl). cbn [takewhile]. fold (is_blank l).
    destruct (is_blank l).
    + replace (Z.of_nat k + 1) with (Z.of_nat (S k)) by lia.
      rewrite IH by lia. f_equal. cbn [length]. lia.
    + cbn [length]. f_equal. lia.
  - rewrite drop_ge by lia. cbn. f_equal. lia.
Qed.

Lemma scan_signature_spec (budget i : nat) :
  (length lines < budget)%nat ->
  forall (fuel k : nat) (sig : list str) (paren : Z) (in_func : bool),
    (i <= k <= length lines)%nat -> (length lines - k < fuel)%nat ->
    scan_signature fuel budget lines (Z.of_nat i) (Z.of_nat k) sig paren
      in_func =
    Done (sig_scan (drop k lines) (k =? i)%nat sig paren in_func).
Proof.
  intros Hb. induction fuel as [|fuel IH]; intros k sig paren inf Hk Hf; [lia|].
  cbn [scan_signature]. unfold len.
  destruct (Z.ltb_spec (Z.of_nat k) (Z.of_nat (length lines))) as [Hlt|Hge].
  2: { rewrite drop_ge by lia. reflexivity. }
  destruct (lookup_lt_is_Some_2 lines k) as [l Hl]; [lia|].
  rewrite (getitem_nat _ _ _ Hl). cbn [bind].
  rewrite (drop_S _ _ _ Hl). cbn [sig_scan].
  replace (Z.of_nat k + 1) with (Z.of_nat (S k)) by lia.
  assert (Hnext : forall sig' paren' inf',
    scan_signature fuel budget lines (Z.of_nat i) (Z.of_nat (S k)) sig'
      paren' inf' = Done (sig_scan (drop (S k) lines) false sig' paren' inf')).
  { intros. rewrite IH by lia.
    replace (S k =? i)%nat with false; [reflexivity|].
    symmetry. apply Nat.eqb_neq. lia. }
  destruct (if negb inf && startswith (py "func ") (strip l) then true else inf);
    [|apply Hnext].
  destruct (contains (py "{") (strip l)); [reflexivity|].
  replace (Z.of_nat k >? Z.of_nat i) with (negb (k =? i)%nat).
  2: { rewrite Z.gtb_ltb. destruct (Nat.eqb_spec k i), (Z.ltb_spec (Z.of_nat i) (Z.of_nat k));
       simpl; lia. }
  destruct ((paren + (count 40 (strip l) - count 41 (strip l)) =? 0)
            && negb (k =? i)%nat); cbn [andb]; [|apply Hnext].
  rewrite skip_blank_spec by lia. cbn [bind]. unfold next_is_brace.
  pose proof (lookup_after_takewhile is_blank (drop (S k) lines)) as Hh.
  rewrite lookup_drop in Hh.
  pose proof (length_takewhile_le is_blank (drop (S k) lines)) as Hle.
  rewrite length_drop in Hle.
  destruct (Z.ltb_spec
    (Z.of_nat (S k + length (takewhile is_blank (drop (S k) lines))))
    (Z.of_nat (length lines))) as [Hin|Hout].
  - destruct (lookup_lt_is_Some_2 lines
      (S k + length (takewhile is_blank (drop (S k) lines)))) as [l' Hl'];
      [lia|].
    rewrite (getitem_nat _ _ _ Hl'). cbn [bind].
    rewrite Hl' in Hh. destruct (dropwhile is_blank (drop (S k) lines));
      [discriminate|]. injection Hh as <-.
    destruct (startswith (py "{") (strip l')); [reflexivity | apply Hnext].
  - rewrite lookup_ge_None_2 in Hh by lia.
    destruct (dropwhile is_blank (drop (S k) lines)); [|discriminate].
    apply Hnext.
Qed.

End Loops.

Lemma scan_lines_spec (lines : list str) (budget : nat) :
  (length lines < budget)%nat ->
  forall (fuel k : nat) (functions : list func_info),
    (k <= length lines)%nat -> (length lines - k < fuel)%nat ->
    scan_lines fuel budget lines (Z.of_nat k) functions =
    Done (functions ++ infos_from lines k (drop k lines)).
Proof.
  intros Hb. induction fuel as [|fuel IH]; intros k fns Hk Hf; [lia|].
  cbn [scan_lines]. unfold len.
  destruct (Z.ltb_spec (Z.of_nat k) (Z.of_nat (length lines))) as [Hlt|Hge].
  2: { rewrite drop_ge by lia. cbn. now rewrite app_nil_r. }
  destruct (lookup_lt_is_Some_2 lines k) as [l Hl]; [lia|].
  rewrite (getitem_nat _ _ _ Hl). cbn [bind].
  rewrite (drop_S _ _ _ Hl). cbn [infos_from].
  replace (Z.of_nat k + 1) with (Z.of_nat (S k)) by lia.
  destruct (is_candidate (strip l)).
  - rewrite collect_docs_spec by lia. cbn [bind].
    rewrite (scan_signature_spec lines budget k Hb) by lia. cbn [bind].
    rewrite Nat.eqb_refl. fold (info_at lines k).
    destruct (info_at lines k) as [info|]; cbn [option_list].
    + rewrite IH by lia. now rewrite <- app_assoc.
    + rewrite IH by lia. reflexivity.
  - rewrite IH by lia. reflexivity.
Qed.

(** With a budget above the number of lines the loops end and no index is
    out of range: the extractor returns [infos]. *)
Lemma extract_text_spec (budget : nat) (content : str) :
  (length (split 10 content) < budget)%nat ->
  extract_text budget content = Done (infos content).
Proof.
  intros Hb. unfold extract_text, infos.
  change 0 with (Z.of_nat 0).
  rewrite (scan_lines_spec _ budget Hb budget 0%nat []); [reflexivity|lia|lia].
Qed.

(** ** Strings *)

Lemma streq_eq (s t : str) : streq s t = true <-> s = t.
Proof.
  revert t. induction s as [|a s IH]; intros [|b t]; simpl; split;
    try congruence; try reflexivity.
  - intros H. apply andb_true_iff in H as [H1 H2].
    apply N.eqb_eq in H1. apply IH in H2. congruence.
  - intros [= -> ->]. rewrite N.eqb_refl. simpl. now apply IH.
Qed.

Lemma startswith_app (p s : str) :
  startswith p s = true <-> exists r, s = p ++ r.
Proof.
  revert s. induction p as [|a p IH]; intros s; simpl.
  - split; eauto.
  - destruct s as [|b s]; [split; [discriminate | intros [r [=]]]|].
    rewrite andb_true_iff, N.eqb_eq, IH. split.
    + intros [-> [r ->]]. eauto.
    + intros [r [= -> ->]]. eauto.
Qed.

Lemma startswith_app_l (p s z : str) :
  startswith p s = true -> startswith p (s ++ z) = true.
Proof.
  rewrite !startswith_app. intros [r ->]. exists (r ++ z).
  now rewrite app_assoc.
Qed.

Lemma dropwhile_app_l {A} (p : A -> bool) (s z : list A) :
  dropwhile p s <> [] -> dropwhile p (s ++ z) = dropwhile p s ++ z.
Proof.
  induction s as [|c s IH]; simpl; [congruence|].
  destruct (p c); [exact IH | reflexivity].
Qed.

Lemma dropwhile_head {A} (p : A -> bool) (s : list A) (c : A) (t : list A) :
  dropwhile p s = c :: t -> p c = false.
Proof.
  induction s as [|a s IH]; simpl; [discriminate|].
  destruct (p a) eqn:E; [exact IH | congruence].
Qed.

Lemma dropwhile_id {A} (p : A -> bool) (c : A) (t : list A) :
  p c = false -> dropwhile p (c :: t) = c :: t.
Proof. intros H. simpl. now rewrite H. Qed.

Lemma length_dropwhile {A} (p : A -> bool) (s : list A) :
  (length s - length (dropwhile p s) = length (takewhile p s))%nat.
Proof.
  rewrite <- (takewhile_dropwhile p s) at 1. rewrite length_app. lia.
Qed.

Lemma drop_takewhile {A} (p : A -> bool) (s : list A) :
  drop (length (takewhile p s)) s = dropwhile p s.
Proof.
  induction s as [|c s IH]; simpl; [reflexivity|].
  destruct (p c); simpl; [exact IH | reflexivity].
Qed.

Lemma take_takewhile {A} (p : A -> bool) (s : list A) :
  take (length (takewhile p s)) s = takewhile p s.
Proof.
  induction s as [|c s IH]; simpl; [reflexivity|].
  destruct (p c); simpl; [now rewrite IH | reflexivity].
Qed.

Lemma takewhile_app_stop {A} (p : A -> bool) (t z : list A) :
  match z with [] => True | c :: _ => p c = false end ->
  takewhile p (t ++ z) = takewhile p t.
Proof.
  intros Hz. induction t as [|x t IH]; cbn [app takewhile].
  - destruct z as [|c z]; [reflexivity|]. cbn [takewhile]. now rewrite Hz.
  - now rewrite IH.
Qed.

Lemma takewhile_idem {A} (p : A -> bool) (s : list A) :
  takewhile p (takewhile p s) = takewhile p s.
Proof.
  induction s as [|c s IH]; [reflexivity|].
  cbn [takewhile]. destruct (p c) eqn:E; [|reflexivity].
  cbn [takewhile]. now rewrite E, IH.
Qed.

(** [rstrip] *)

Lemma rstrip_cons (c : N) (t : str) :
  rstrip (c :: t) =
  if isspace c && streq (rstrip t) [] then [] else c :: rstrip t.
Proof.
  simpl. destruct (rstrip t); simpl.
  - destruct (isspace c); reflexivity.
  - rewrite andb_false_r. reflexivity.
Qed.

Lemma dropwhile_snoc {A} (p : A -> bool) (a : list A) (c : A) :
  dropwhile p (a ++ [c]) =
  match dropwhile p a with
  | [] => if p c then [] else [c]
  | d => d ++ [c]
  end.
Proof.
  induction a as [|x a IH]; [reflexivity|].
  cbn [app dropwhile]. destruct (p x); [exact IH | reflexivity].
Qed.

(** [rstrip] removes the whitespace at the end: it is [lstrip] on the
    text read backwards. *)
Lemma rstrip_rev (s : str) : rstrip s = rev (dropwhile isspace (rev s)).
Proof.
  induction s as [|c s IH]; [reflexivity|].
  rewrite rstrip_cons, IH. cbn [rev]. rewrite dropwhile_snoc.
  destruct (dropwhile isspace (rev s)) as [|d ds]; cbn [rev streq].
  - rewrite andb_true_r. destruct (isspace c); reflexivity.
  - rewrite rev_app_distr. cbn [rev app].
    destruct (rev ds ++ [d]) eqn:E; [now destruct (rev ds)|].
    cbn [streq]. now rewrite andb_false_r.
Qed.

Lemma rstrip_nil_iff (s : str) : rstrip s = [] <-> dropwhile isspace s = [].
Proof.
  induction s as [|c s IH]; [simpl; tauto|].
  rewrite rstrip_cons. simpl dropwhile.
  destruct (isspace c) eqn:E; simpl.
  - rewrite <- IH. destruct (rstrip s); simpl; split; congruence.
  - split; discriminate.
Qed.

Lemma rstrip_app (a b : str) :
  rstrip (a ++ b) = if streq (rstrip b) [] then rstrip a else a ++ rstrip b.
Proof.
  induction a as [|c a IH].
  - simpl app. destruct (rstrip b); reflexivity.
  - rewrite <- app_comm_cons, !rstrip_cons, IH.
    destruct (rstrip b) as [|x r]; simpl streq; cbv iota.
    + reflexivity.
    + destruct a; simpl; rewrite andb_false_r; reflexivity.
Qed.

Lemma rstrip_idem (s : str) : rstrip (rstrip s) = rstrip s.
Proof.
  induction s as [|c s IH]; [reflexivity|].
  rewrite rstrip_cons. destruct (isspace c && streq (rstrip s) []) eqn:E;
    [reflexivity|].
  rewrite rstrip_cons, IH, E. reflexivity.
Qed.

Lemma rstrip_last_nonspace (s : str) (c : N) :
  isspace c = false -> rstrip (s ++ [c]) = s ++ [c].
Proof.
  intros H. rewrite rstrip_app. simpl. now rewrite H.
Qed.

Lemma lstrip_rstrip (s : str) : lstrip (rstrip s) = rstrip (lstrip s).
Proof.
  unfold lstrip. induction s as [|c s IH]; [reflexivity|].
  rewrite rstrip_cons. simpl dropwhile at 2.
  destruct (isspace c) eqn:E; simpl andb.
  - rewrite <- IH. destruct (rstrip s); simpl; [reflexivity|].
    now rewrite E.
  - rewrite rstrip_cons, E. simpl. now rewrite E.
Qed.

Lemma strip_nonempty_head (s : str) (c : N) (t : str) :
  strip s = c :: t -> isspace c = false.
Proof.
  unfold strip. rewrite <- lstrip_rstrip. apply dropwhile_head.
Qed.

(** The stripped first part of a text stays in front when the text is
    stripped, if it is not empty. *)
Lemma strip_app_l (a z : str) :
  strip a <> [] -> exists z', strip (rstrip a ++ z) = strip a ++ z'.
Proof.
  intros Hne. unfold strip, lstrip.
  assert (Hd : dropwhile isspace (rstrip a) <> []).
  { fold (lstrip (rstrip a)). rewrite lstrip_rstrip. exact Hne. }
  rewrite (dropwhile_app_l _ _ _ Hd). fold (lstrip (rstrip a)).
  rewrite lstrip_rstrip. fold (strip a). fold (lstrip a).
  rewrite rstrip_app. destruct (streq (rstrip z) []).
  - exists []. fold (strip a). unfold strip. now rewrite rstrip_idem, app_nil_r.
  - eauto.
Qed.

(** ** The matcher *)

Module ReFacts.
Import Re.

Lemma run_one_cons (p : N -> bool) (pat : pattern) (c : N) (t : str)
    (marks : list str) :
  run (One p :: pat) (c :: t) marks =
  if p c then run pat t marks else None.
Proof. reflexivity. Qed.

Lemma run_mark (pat : pattern) (s : str) (marks : list str) :
  run (Mark :: pat) s marks = run pat s (s :: marks).
Proof. reflexivity. Qed.

Lemma run_star_nil (p : N -> bool) (pat : pattern) (marks : list str) :
  run (Star p :: pat) [] marks = run pat [] marks.
Proof. reflexivity. Qed.

Lemma run_star_cons (p : N -> bool) (pat : pattern) (c : N) (t : str)
    (marks : list str) :
  run (Star p :: pat) (c :: t) marks =
  if p c then
    match run (Star p :: pat) t marks with
    | Some r => Some r
    | None => run pat (c :: t) marks
    end
  else run pat (c :: t) marks.
Proof. reflexivity. Qed.

(** A repetition keeps all it can take when the rest of the pattern then
    matches, or when the rest cannot start with a character given back. *)
Lemma run_star_max (p : N -> bool) (pat : pattern) (s : str)
    (marks : list str) :
  run pat (dropwhile p s) marks <> None \/
  (forall c t, p c = true -> run pat (c :: t) marks = None) ->
  run (Star p :: pat) s marks = run pat (dropwhile p s) marks.
Proof.
  intros H. induction s as [|c s IH]; [reflexivity|].
  rewrite run_star_cons. simpl dropwhile in *.
  destruct (p c) eqn:E; [|reflexivity].
  rewrite (IH H). destruct (run pat (dropwhile p s) marks) eqn:R;
    [reflexivity|].
  destruct H as [H|H]; [congruence | now apply H].
Qed.

(** A repetition fails when the rest of the pattern fails wherever the
    repetition stops. *)
Lemma run_star_fail (p : N -> bool) (pat : pattern) (s : str)
    (marks : list str) :
  (forall x, run pat (x ++ dropwhile p s) marks = None) ->
  run (Star p :: pat) s marks = None.
Proof.
  induction s as [|c s IH]; intros H.
  - rewrite run_star_nil. exact (H []).
  - rewrite run_star_cons. simpl dropwhile in H.
    destruct (p c) eqn:E; [|exact (H [])].
    rewrite (IH H).
    rewrite <- (takewhile_dropwhile p s), app_comm_cons. apply H.
Qed.

Lemma run_lit_app (w : str) (pat : pattern) (s : str) (marks : list str) :
  run (List.map (fun c => One (N.eqb c)) w ++ pat) s marks =
  if startswith w s then run pat (drop (length w) s) marks else None.
Proof.
  revert s. induction w as [|a w IH]; intros s; [reflexivity|].
  destruct s as [|b s]; [reflexivity|].
  simpl. destruct (a =? b)%N; [apply IH | reflexivity].
Qed.

End ReFacts.

Lemma isupper_not_space (c : N) : isupper c = true -> isspace c = false.
Proof.
  unfold isupper, isspace. intros H.
  apply andb_true_iff in H as [H1 H2].
  apply N.leb_le in H1. apply N.leb_le in H2.
  repeat match goal with
  | |- context [(?a <=? ?b)%N] => destruct (N.leb_spec a b); try lia
  | |- context [(?a =? ?b)%N] => destruct (N.eqb_spec a b); try lia
  end; reflexivity.
Qed.

Lemma match_func_upper (s : str) :
  Re.rmatch pat_func_upper s =
  match after_func s with
  | Some (u :: t) => if isupper u then Some ([], t) else None
  | _ => None
  end.
Proof.
  unfold Re.rmatch, pat_func_upper, Re.lit, after_func.
  rewrite ReFacts.run_lit_app.
  destruct (startswith (py "func") s); [|reflexivity].
  change (length (py "func")) with 4%nat.
  destruct (drop 4 s) as [|c r]; [reflexivity|].
  cbn [Re.plus app]. rewrite ReFacts.run_one_cons.
  destruct (isspace c); [|reflexivity].
  rewrite ReFacts.run_star_max.
  - destruct (dropwhile isspace r) as [|u t]; reflexivity.
  - right. intros x t Hx. rewrite ReFacts.run_one_cons.
    destruct (isupper x) eqn:E; [|reflexivity].
    apply isupper_not_space in E. congruence.
Qed.

Lemma match_func_name (s : str) :
  Re.rmatch pat_func_name s =
  match after_func s with
  | Some (u :: t) =>
      if isupper u
      then Some ([dropwhile isalnum t; u :: t], dropwhile isalnum t)
      else None
  | _ => None
  end.
Proof.
  unfold Re.rmatch, pat_func_name, Re.lit, after_func.
  rewrite ReFacts.run_lit_app.
  destruct (startswith (py "func") s); [|reflexivity].
  change (length (py "func")) with 4%nat.
  destruct (drop 4 s) as [|c r]; [reflexivity|].
  cbn [Re.plus app]. rewrite ReFacts.run_one_cons.
  destruct (isspace c); [|reflexivity].
  rewrite ReFacts.run_star_max.
  - destruct (dropwhile isspace r) as [|u t]; [reflexivity|].
    rewrite ReFacts.run_mark, ReFacts.run_one_cons.
    destruct (isupper u); [|reflexivity].
    rewrite ReFacts.run_star_max; [reflexivity|].
    left. discriminate.
  - right. intros x t Hx. rewrite ReFacts.run_mark, ReFacts.run_one_cons.
    destruct (isupper x) eqn:E; [|reflexivity].
    apply isupper_not_space in E. congruence.
Qed.

(** The name is the uppercase letter and the letters and digits after it. *)
Lemma group1_func_name (u : N) (t : str) :
  Re.group1 ([dropwhile isalnum t; u :: t], dropwhile isalnum t) =
  u :: takewhile isalnum t.
Proof.
  unfold Re.group1. cbn [fst length].
  pose proof (f_equal length (takewhile_dropwhile isalnum t)) as H.
  rewrite length_app in H.
  replace (S (length t) - length (dropwhile isalnum t))%nat
    with (S (length (takewhile isalnum t))) by lia.
  cbn [firstn]. f_equal. apply take_takewhile.
Qed.

(** ** The two substitutions *)

Lemma collapse_cons (c : N) (t : str) :
  collapse (c :: t) =
  if isspace c then
    match t with
    | c' :: _ => if isspace c' then collapse t else 32%N :: collapse t
    | [] => [32%N]
    end
  else c :: collapse t.
Proof. reflexivity. Qed.

Lemma collapse_space (c : N) (t : str) :
  isspace c = true -> collapse (c :: t) = 32%N :: collapse (dropwhile isspace t).
Proof.
  revert c. induction t as [|c' t IH]; intros c Hc.
  - simpl. now rewrite Hc.
  - rewrite collapse_cons, Hc. cbn [dropwhile].
    destruct (isspace c') eqn:E; [now apply IH | reflexivity].
Qed.

Lemma sub_from_skip (pat : Re.pattern) (repl : str) :
  forall (s : str) (n : nat), (n <= length s)%nat ->
    Re.sub_from pat repl s n = Re.sub_from pat repl (drop n s) 0.
Proof.
  induction s as [|c s IH]; intros n Hn.
  - destruct n; [reflexivity | simpl in Hn; lia].
  - destruct n as [|n]; [reflexivity|].
    cbn [Re.sub_from drop]. apply IH. simpl in Hn. lia.
Qed.

Lemma run_spaces (s : str) :
  Re.run pat_spaces s [] =
  match s with
  | c :: t => if isspace c then Some ([], dropwhile isspace t) else None
  | [] => None
  end.
Proof.
  unfold pat_spaces, Re.plus. destruct s as [|c t]; [reflexivity|].
  rewrite ReFacts.run_one_cons. destruct (isspace c); [|reflexivity].
  rewrite ReFacts.run_star_max; [reflexivity|]. left. discriminate.
Qed.

(** [re.sub(r'\s+', ' ', s)] collapses the runs of whitespace. *)
Lemma sub_spaces (s : str) : Re.sub pat_spaces (py " ") s = collapse s.
Proof.
  unfold Re.sub.
  remember (length s) as n eqn:Hn. revert s Hn.
  induction n as [n IH] using lt_wf_ind. intros s ->.
  destruct s as [|c t]; [reflexivity|].
  cbn [Re.sub_from]. rewrite run_spaces.
  destruct (isspace c) eqn:E.
  - rewrite (collapse_space _ _ E).
    pose proof (f_equal length (takewhile_dropwhile isspace t)) as Hl.
    rewrite length_app in Hl. cbn [length].
    replace (S (length t) - length (dropwhile isspace t))%nat
      with (S (length (takewhile isspace t))) by lia.
    rewrite sub_from_skip by lia. rewrite drop_takewhile.
    change (py " " ++ ?x) with (32%N :: x). f_equal.
    apply (IH (length (dropwhile isspace t))); [simpl; lia | reflexivity].
  - rewrite collapse_cons, E. f_equal.
    apply (IH (length t)); [simpl; lia | reflexivity].
Qed.

Lemma space_not_newline_only (c : N) : isspace c = false -> (c =? 10)%N = false.
Proof.
  intros H. destruct (N.eqb_spec c 10); [subst; discriminate | reflexivity].
Qed.

Lemma run_spaces_eos (s : str) (marks : list str) :
  Re.run [Re.Star isspace; Re.Eos] s marks =
  if streq (dropwhile isspace s) [] then Some (marks, []) else None.
Proof.
  destruct (dropwhile isspace s) as [|d ds] eqn:E; cbn [streq].
  - rewrite ReFacts.run_star_max; rewrite E; [reflexivity|].
    left. discriminate.
  - apply ReFacts.run_star_fail. intros x. rewrite E.
    pose proof (dropwhile_head _ _ _ _ E) as Hd.
    destruct x as [|y [|y' x]]; cbn [app Re.run Re.at_eos].
    + destruct ds; [|reflexivity].
      now rewrite (space_not_newline_only _ Hd).
    + reflexivity.
    + reflexivity.
Qed.

Lemma brace_not_space : isspace 123 = false.
Proof. reflexivity. Qed.

Lemma run_brace_end (s : str) :
  Re.run pat_brace_end s [] = if brace_tail s then Some ([], []) else None.
Proof.
  unfold pat_brace_end, brace_tail, Re.lit. cbn [py list_ascii_of_string List.map app].
  rewrite ReFacts.run_star_max.
  - destruct (dropwhile isspace s) as [|c r]; [reflexivity|].
    rewrite ReFacts.run_one_cons.
    change (N_of_ascii "{") with 123%N.
    destruct (123 =? c)%N; [|reflexivity].
    rewrite run_spaces_eos. cbn [andb]. reflexivity.
  - right. intros c t Hc. rewrite ReFacts.run_one_cons.
    change (N_of_ascii "{") with 123%N.
    destruct (N.eqb_spec 123 c); [|reflexivity].
    subst. discriminate.
Qed.

(** [re.sub(r'\s*{\s*$', '', s)] cuts [s] where a final brace with the
    whitespace around it starts. *)
Lemma sub_brace_end (s : str) : Re.sub pat_brace_end (py "") s = strip_brace s.
Proof.
  unfold Re.sub. induction s as [|c t IH]; [reflexivity|].
  cbn [Re.sub_from strip_brace]. rewrite run_brace_end.
  destruct (brace_tail (c :: t)).
  - cbn [length]. rewrite Nat.sub_0_r.
    rewrite sub_from_skip by lia. rewrite drop_all. reflexivity.
  - now rewrite IH.
Qed.

(** ** The record of a declaration line *)

Lemma candidate_after_func (s : str) :
  is_candidate s = true ->
  exists u t, after_func s = Some (u :: t) /\ isupper u = true.
Proof.
  unfold is_candidate. rewrite andb_true_iff, match_func_upper.
  intros [_ H]. destruct (after_func s) as [[|u t]|]; try discriminate.
  destruct (isupper u) eqn:E; [eauto | discriminate].
Qed.

Lemma candidate_nonempty (s : str) : is_candidate s = true -> s <> [].
Proof. intros H ->. discriminate. Qed.

Lemma after_func_app (s z : str) (u : N) (t : str) :
  after_func s = Some (u :: t) -> after_func (s ++ z) = Some (u :: t ++ z).
Proof.
  unfold after_func. destruct (startswith (py "func") s) eqn:E; [|discriminate].
  rewrite (startswith_app_l _ _ z E).
  apply startswith_app in E as [r ->].
  change (drop 4 (py "func" ++ r)) with r.
  change (drop 4 ((py "func" ++ r) ++ z)) with (r ++ z).
  destruct r as [|c r]; [discriminate|]. cbn [app].
  destruct (isspace c); [|discriminate].
  intros [= H]. rewrite dropwhile_app_l by (rewrite H; discriminate).
  now rewrite H.
Qed.

Lemma build_info_candidate (l : str) (more docs : list str) (i : Z) :
  is_candidate (strip l) = true ->
  exists nm,
    build_info (rstrip l :: more) docs i =
    Some (FuncInfo nm
            (strip_brace (collapse (strip (join (py " ") (rstrip l :: more)))))
            docs (i + 1)) /\
    exists u t, nm = u :: t /\ isupper u = true.
Proof.
  intros Hc. unfold build_info.
  destruct (candidate_after_func _ Hc) as (u & t & Ha & Hu).
  assert (Hj : exists z, join (py " ") (rstrip l :: more) = rstrip l ++ z).
  { destruct more; [exists []; simpl; now rewrite app_nil_r | eauto]. }
  destruct Hj as [z Hj]. rewrite Hj.
  destruct (strip_app_l l z (candidate_nonempty _ Hc)) as [z' Hz].
  rewrite Hz, match_func_name, (after_func_app _ z' _ _ Ha), Hu.
  rewrite group1_func_name, sub_spaces, sub_brace_end. eauto 6.
Qed.

Lemma sig_scan_prefix (rest : list str) :
  forall (first : bool) (sig : list str) (paren : Z) (in_func : bool),
    exists more, sig_scan rest first sig paren in_func = sig ++ more.
Proof.
  induction rest as [|l rest IH]; intros first sig paren inf.
  - exists []. simpl. now rewrite app_nil_r.
  - cbn [sig_scan].
    destruct (if negb inf && startswith (py "func ") (strip l) then true else inf);
      [|apply IH].
    destruct (contains (py "{") (strip l)); [eauto|].
    destruct (_ && _).
    + eauto.
    + destruct (IH false (sig ++ [rstrip l])
        (paren + (count 40 (strip l) - count 41 (strip l))) true) as [more ->].
      exists ([rstrip l] ++ more). now rewrite app_assoc.
Qed.

Lemma sig_scan_candidate (l : str) (rest : list str) :
  is_candidate (strip l) = true ->
  exists more, sig_scan (l :: rest) true [] 0 false = rstrip l :: more.
Proof.
  intros Hc. unfold is_candidate in Hc. apply andb_true_iff in Hc as [Hf _].
  cbn [sig_scan negb andb]. rewrite Hf. cbn [app].
  destruct (contains (py "{") (strip l)); [eauto|].
  rewrite andb_false_r. cbn [andb].
  destruct (sig_scan_prefix rest false [rstrip l]
    (0 + (count 40 (strip l) - count 41 (strip l))) true) as [more ->].
  eauto.
Qed.

Lemma info_at_candidate (lines : list str) (i : nat) (l : str) :
  lines !! i = Some l -> is_candidate (strip l) = true ->
  exists r,
    info_at lines i = Some r /\
    line_number r = Z.of_nat i + 1 /\
    documentation r = docs_above (rev (take i lines)) [] /\
    signature r =
      strip_brace (collapse (strip (join (py " ")
        (sig_scan (drop i lines) true [] 0 false)))) /\
    exists u t, name r = u :: t /\ isupper u = true.
Proof.
  intros Hl Hc. unfold info_at. rewrite (drop_S _ _ _ Hl).
  destruct (sig_scan_candidate l (drop (S i) lines) Hc) as [more ->].
  destruct (build_info_candidate l more (docs_above (rev (take i lines)) [])
              (Z.of_nat i) Hc) as (nm & -> & Hn).
  eexists. split; [reflexivity|]. cbn. auto.
Qed.

Lemma drop_cons_inv {A} (l : list A) (k : nat) (x : A) (r : list A) :
  drop k l = x :: r -> l !! k = Some x /\ drop (S k) l = r.
Proof.
  intros H.
  assert (Hk : l !! k = Some x).
  { rewrite <- (Nat.add_0_r k), <- lookup_drop, H. reflexivity. }
  split; [exact Hk|]. rewrite (drop_S _ _ _ Hk) in H. congruence.
Qed.

Lemma infos_from_lines (lines : list str) :
  forall (rest : list str) (k : nat), drop k lines = rest ->
    List.map line_number (infos_from lines k rest) = decl_lines k rest.
Proof.
  induction rest as [|l rest IH]; intros k Hk; [reflexivity|].
  destruct (drop_cons_inv _ _ _ _ Hk) as [Hl Hr].
  cbn [infos_from decl_lines]. rewrite List.map_app, (IH _ Hr). f_equal.
  destruct (is_candidate (strip l)) eqn:Hc; [|reflexivity].
  destruct (info_at_candidate _ _ _ Hl Hc) as (r & -> & Hn & _).
  cbn. now rewrite Hn.
Qed.

Lemma infos_from_elem (lines : list str) (r : func_info) :
  forall (rest : list str) (k : nat), drop k lines = rest ->
    (In r (infos_from lines k rest) <->
     exists (i : nat) (l : str),
       (k <= i)%nat /\ lines !! i = Some l /\
       is_candidate (strip l) = true /\ info_at lines i = Some r).
Proof.
  induction rest as [|l rest IH]; intros k Hk.
  - split; [intros []|]. intros (i & l & Hi & Hl & _).
    apply lookup_lt_Some in Hl.
    assert (Hlen : length (drop k lines) = 0%nat) by now rewrite Hk.
    rewrite length_drop in Hlen. lia.
  - destruct (drop_cons_inv _ _ _ _ Hk) as [Hl Hr].
    cbn [infos_from]. rewrite in_app_iff, (IH _ Hr). split.
    + intros [H|(i & l' & Hi & H)].
      * destruct (is_candidate (strip l)) eqn:Hc; [|destruct H].
        destruct (info_at lines k) as [x|] eqn:Hx; [|destruct H].
        destruct H as [<-|[]]. exists k, l. auto.
      * exists i, l'. split; [lia | exact H].
    + intros (i & l' & Hi & Hl' & Hc & Hr').
      destruct (Nat.eq_dec i k) as [->|Hne].
      * left. rewrite Hl in Hl'. injection Hl' as <-.
        rewrite Hc, Hr'. now left.
      * right. exists i, l'. repeat split; auto. lia.
Qed.

Lemma decl_lines_bounds (rest : list str) :
  forall (k : nat) (z : Z), In z (decl_lines k rest) ->
    Z.of_nat k < z <= Z.of_nat k + Z.of_nat (length rest).
Proof.
  induction rest as [|l rest IH]; intros k z; [intros []|].
  cbn [decl_lines length]. rewrite in_app_iff. intros [H|H].
  - destruct (is_candidate (strip l)); [|destruct H].
    destruct H as [<-|[]]. lia.
  - apply IH in H. lia.
Qed.

Lemma decl_lines_sorted (rest : list str) :
  forall (k : nat), StronglySorted Z.lt (decl_lines k rest).
Proof.
  induction rest as [|l rest IH]; intros k; [constructor|].
  cbn [decl_lines]. destruct (is_candidate (strip l)); cbn [app]; [|apply IH].
  constructor; [apply IH|]. apply List.Forall_forall. intros z Hz.
  apply decl_lines_bounds in Hz. lia.
Qed.

(** * The claims about the extractor *)

Lemma strongly_sorted_lt_nodup (l : list Z) :
  StronglySorted Z.lt l -> List.NoDup l.
Proof.
  induction 1 as [|a l Hs IH Hall]; constructor; [|exact IH].
  intros Hin. rewrite List.Forall_forall in Hall.
  specialize (Hall _ Hin). lia.
Qed.

(** The claim fails for a text cut off in the middle of a parameter list:
    the declaration gets a record. *)
Lemma failures_omitted_fails :
  extract_text 3 truncated_text =
  Done [ {| name := py "Load"; signature := py "func Load(path string,";
            documentation := []; line_number := 2 |} ] /\
  ~ failures_omitted 3 truncated_text 1.
Proof.
  split; [vm_compute; reflexivity|].
  intros H. destruct H as (rs & Hrs & Hno).
  - vm_compute. lia.
  - eexists. split; vm_compute; reflexivity.
  - intros l' Hl'. vm_compute in Hl'.
    destruct Hl' as [<-|[]]. vm_compute. reflexivity.
  - vm_compute in Hrs. injection Hrs as <-.
    eapply Hno; [left; reflexivity|]. reflexivity.
Qed.

(** C8, amended: for every text, well-formed or not, the extractor ends
    and returns a list of records (possibly empty); it does not raise. A
    declaration that is malformed or not finished is not left out: every
    line that passes the test for a declaration has a record. The budget
    is any number above the number of lines. *)
Theorem extract_text_returns (budget : nat) (content : str) :
  (length (split 10 content) < budget)%nat ->
  exists rs,
    extract_text budget content = Done rs /\
    forall (i : nat) (l : str),
      split 10 content !! i = Some l -> is_candidate (strip l) = true ->
      exists r, In r rs /\ line_number r = Z.of_nat i + 1.
Proof.
  intros Hb. exists (infos content).
  split; [now apply extract_text_spec|].
  intros i l Hl Hc.
  destruct (info_at_candidate _ _ _ Hl Hc) as (r & Hr & Hn & _).
  exists r. split; [|exact Hn]. unfold infos.
  apply (infos_from_elem (split 10 content) r (split 10 content) 0%nat
           eq_refl).
  exists i, l. repeat split; auto. lia.
Qed.

Lemma extract_text_returns_witness :
  (length (split 10 broken_text) < 4)%nat /\
  exists rs,
    extract_text 4 broken_text = Done rs /\
    forall (i : nat) (l : str),
      split 10 broken_text !! i = Some l -> is_candidate (strip l) = true ->
      exists r, In r rs /\ line_number r = Z.of_nat i + 1.
Proof.
  split; [vm_compute; lia | apply extract_text_returns; vm_compute; lia].
Defined.

(** C9: the records come in source order. Their line numbers are the
    numbers of the declaration lines from top to bottom, so they increase
    strictly along the list and no line has two records. *)
Theorem extract_text_source_order (budget : nat) (content : str) :
  (length (split 10 content) < budget)%nat ->
  exists rs,
    extract_text budget content = Done rs /\
    List.map line_number rs = decl_lines 0 (split 10 content) /\
    StronglySorted Z.lt (List.map line_number rs) /\
    List.NoDup (List.map line_number rs).
Proof.
  intros Hb. exists (infos content).
  split; [now apply extract_text_spec|].
  assert (H : List.map line_number (infos content)
              = decl_lines 0 (split 10 content)).
  { unfold infos. now apply infos_from_lines. }
  rewrite H. split; [reflexivity|].
  pose proof (decl_lines_sorted (split 10 content) 0) as Hs.
  split; [exact Hs | now apply strongly_sorted_lt_nodup].
Qed.

Lemma extract_text_source_order_witness :
  (length (split 10 two_decls) < 5)%nat /\
  exists rs,
    extract_text 5 two_decls = Done rs /\
    List.map line_number rs = decl_lines 0 (split 10 two_decls) /\
    StronglySorted Z.lt (List.map line_number rs) /\
    List.NoDup (List.map line_number rs).
Proof.
  split; [vm_compute; lia | apply extract_text_source_order; vm_compute; lia].
Defined.

Lemma infos_elem (content : str) (r : func_info) :
  In r (infos content) <->
  exists (i : nat) (l : str),
    split 10 content !! i = Some l /\
    is_candidate (strip l) = true /\ info_at (split 10 content) i = Some r.
Proof.
  unfold infos. rewrite (infos_from_elem _ r _ 0%nat eq_refl).
  split; intros (i & l & H); exists i, l; [tauto|].
  split; [lia | exact H].
Qed.

(** C4: every record has a name that begins with an uppercase letter, and
    a line where [func] is followed by a name that does not begin with
    one (such as [func getUser(...)]) gets no record. *)
Theorem extract_text_names_upper (budget : nat) (content : str) :
  (length (split 10 content) < budget)%nat ->
  exists rs,
    extract_text budget content = Done rs /\
    (forall r, In r rs ->
       exists u t, name r = u :: t /\ isupper u = true) /\
    (forall (i : nat) (l : str) (c : N) (t : str),
       split 10 content !! i = Some l ->
       after_func (strip l) = Some (c :: t) -> isupper c = false ->
       forall r, In r rs -> line_number r <> Z.of_nat i + 1).
Proof.
  intros Hb. exists (infos content).
  split; [now apply extract_text_spec|]. split.
  - intros r Hr. apply infos_elem in Hr as (i & l & Hl & Hc & Hi).
    destruct (info_at_candidate _ _ _ Hl Hc) as (r' & Hr' & _ & _ & _ & Hn).
    assert (r' = r) by congruence. subst r'. exact Hn.
  - intros i l c t Hl Ha Hlow r Hr Hnum.
    apply infos_elem in Hr as (i' & l' & Hl' & Hc & Hi).
    destruct (info_at_candidate _ _ _ Hl' Hc) as (r' & Hr' & Hn & _).
    assert (r' = r) by congruence. subst r'.
    assert (i' = i) by lia. subst i'.
    assert (l' = l) by congruence. subst l'.
    destruct (candidate_after_func _ Hc) as (u & t' & Hu & Hup).
    congruence.
Qed.

Lemma extract_text_names_upper_witness :
  (length (split 10 lower_decl) < 3)%nat /\
  exists rs,
    extract_text 3 lower_decl = Done rs /\
    (forall r, In r rs ->
       exists u t, name r = u :: t /\ isupper u = true) /\
    (forall (i : nat) (l : str) (c : N) (t : str),
       split 10 lower_decl !! i = Some l ->
       after_func (strip l) = Some (c :: t) -> isupper c = false ->
       forall r, In r rs -> line_number r <> Z.of_nat i + 1).
Proof.
  split; [vm_compute; lia | apply extract_text_names_upper; vm_compute; lia].
Defined.

Example lower_decl_no_record : extract_text 3 lower_decl = Done [].
Proof. vm_compute. reflexivity. Qed.

(** C3: the text of two lines, the comment [// Returns the user by ID.]
    and the declaration of [GetUser] with the parameter [id int] and the
    results [User] pointer and [error], ending in the opening brace, gives
    exactly one record: name [GetUser], as signature the declaration line
    without the brace and the space before it, documentation
    [Returns the user by ID.], line number 2. *)
Theorem extract_text_get_user (budget : nat) :
  (2 < budget)%nat ->
  extract_text budget get_user_text =
  Done [ {| name := py "GetUser";
            signature := py "func GetUser(id int) (" ++ py "*User, error)";
            documentation := [py "Returns the user by ID."];
            line_number := 2 |} ].
Proof.
  intros Hb. rewrite extract_text_spec by exact Hb.
  vm_compute. reflexivity.
Qed.

Lemma extract_text_get_user_witness :
  (2 < 3)%nat /\
  extract_text 3 get_user_text =
  Done [ {| name := py "GetUser";
            signature := py "func GetUser(id int) (" ++ py "*User, error)";
            documentation := [py "Returns the user by ID."];
            line_number := 2 |} ].
Proof.
  split; [lia | apply extract_text_get_user; lia].
Defined.

(** ** Documentation above a declaration *)

Lemma docs_above_acc (above : list str) :
  forall docs, docs_above above docs = docs_above above [] ++ docs.
Proof.
  induction above as [|l above IH]; intros docs; [reflexivity|].
  cbn [docs_above]. destruct (is_comment l).
  - rewrite (IH (doc_text l :: docs)), (IH [doc_text l]).
    now rewrite <- app_assoc.
  - destruct (is_blank l); [apply IH | reflexivity].
Qed.

Lemma blank_not_comment (l : str) : is_blank l = true -> is_comment l = false.
Proof.
  unfold is_blank, is_comment. intros H. apply streq_eq in H.
  now rewrite H.
Qed.

Lemma docs_above_blanks (bs above docs : list str) :
  List.Forall (fun x => is_blank x = true) bs ->
  docs_above (bs ++ above) docs = docs_above above docs.
Proof.
  induction 1 as [|b bs Hb _ IH]; [reflexivity|].
  cbn [app docs_above]. now rewrite (blank_not_comment _ Hb), Hb.
Qed.

Lemma docs_above_comments (cs above : list str) :
  List.Forall (fun x => is_comment x = true) cs ->
  forall docs,
    docs_above (cs ++ above) docs =
    docs_above above (List.map doc_text (rev cs) ++ docs).
Proof.
  induction 1 as [|c cs Hc _ IH]; intros docs; [reflexivity|].
  cbn [app docs_above rev]. rewrite Hc, IH, List.map_app.
  now rewrite <- app_assoc.
Qed.

Lemma docs_above_other (x : str) (above docs : list str) :
  other_line x = true -> docs_above (x :: above) docs = docs.
Proof.
  unfold other_line. rewrite andb_true_iff, !negb_true_iff.
  intros [H1 H2]. cbn [docs_above]. now rewrite H1, H2.
Qed.

(** C5: a block of comment lines that blank lines separate from the
    declaration is still its documentation: the texts of the comment lines
    (marker removed, trimmed), from top to bottom, end the documentation,
    and they are all of it when the block starts the file or follows a
    line that is neither a comment nor blank. *)
Theorem docs_across_blank_lines (budget : nat) (content : str)
    (pre comments blanks : list str) (l : str) (post : list str) :
  (length (split 10 content) < budget)%nat ->
  split 10 content = pre ++ comments ++ blanks ++ l :: post ->
  List.Forall (fun x => is_comment x = true) comments ->
  List.Forall (fun x => is_blank x = true) blanks ->
  is_candidate (strip l) = true ->
  exists rs r above,
    extract_text budget content = Done rs /\ In r rs /\
    line_number r = len (pre ++ comments ++ blanks) + 1 /\
    documentation r = above ++ List.map doc_text comments /\
    ((pre = [] \/ exists pre' x, pre = pre' ++ [x] /\ other_line x = true) ->
     above = []).
Proof.
  intros Hb Hs Hcs Hbs Hc.
  set (i := length (pre ++ comments ++ blanks)).
  assert (Hs' : split 10 content = (pre ++ comments ++ blanks) ++ l :: post).
  { rewrite Hs, <- !app_assoc. reflexivity. }
  assert (Hl : split 10 content !! i = Some l).
  { rewrite Hs'. apply list_lookup_middle. reflexivity. }
  destruct (info_at_candidate _ _ _ Hl Hc) as (r & Hr & Hn & Hd & _).
  exists (infos content), r, (docs_above (rev pre) []).
  split; [now apply extract_text_spec|].
  split; [apply infos_elem; eauto|].
  split; [exact Hn|].
  assert (Ht : take i (split 10 content) = pre ++ comments ++ blanks).
  { rewrite Hs'. unfold i. apply take_app_length. }
  split.
  - rewrite Hd, Ht, !rev_app_distr, <- app_assoc.
    rewrite docs_above_blanks by now apply List.Forall_rev.
    rewrite docs_above_comments by now apply List.Forall_rev.
    rewrite rev_involutive, app_nil_r. apply docs_above_acc.
  - intros [->|(pre' & x & -> & Hx)]; [reflexivity|].
    rewrite rev_app_distr. cbn [rev app]. now apply docs_above_other.
Qed.

Lemma docs_across_blank_lines_witness :
  exists rs r above,
    extract_text 8 doc_gap_text = Done rs /\ In r rs /\
    line_number r = len (doc_gap_pre ++ doc_gap_comments ++ doc_gap_blanks) + 1 /\
    documentation r = above ++ List.map doc_text doc_gap_comments /\
    ((doc_gap_pre = [] \/
      exists pre' x, doc_gap_pre = pre' ++ [x] /\ other_line x = true) ->
     above = []).
Proof.
  apply (docs_across_blank_lines 8 doc_gap_text doc_gap_pre doc_gap_comments
           doc_gap_blanks (py "func Get(id int) error {") [py "}"]).
  - vm_compute. lia.
  - vm_compute. reflexivity.
  - repeat constructor.
  - repeat constructor.
  - vm_compute. reflexivity.
Defined.

Example doc_gap_documentation :
  List.map documentation (infos doc_gap_text) =
  [[py "Get returns the thing."; py "It may fail."]].
Proof. vm_compute. reflexivity. Qed.

(** ** Signatures *)

Lemma contains_char (c : N) (s : str) : contains [c] s = true <-> In c s.
Proof.
  induction s as [|a s IH]; simpl.
  - split; [discriminate | intros []].
  - rewrite orb_true_iff, andb_true_r, N.eqb_eq, IH.
    split; intros [H|H]; auto.
Qed.

Lemma contains_char_false (c : N) (s : str) :
  contains [c] s = false <-> ~ In c s.
Proof.
  rewrite <- contains_char. destruct (contains [c] s); split; congruence.
Qed.

Lemma in_dropwhile {A} (p : A -> bool) (s : list A) (x : A) :
  In x (dropwhile p s) -> In x s.
Proof.
  induction s as [|a s IH]; simpl; [tauto|].
  destruct (p a); [auto | tauto].
Qed.

Lemma in_rstrip (s : str) (x : N) : In x (rstrip s) -> In x s.
Proof.
  induction s as [|a s IH]; [tauto|]. rewrite rstrip_cons.
  destruct (isspace a && streq (rstrip s) []); simpl; [tauto|].
  intros [H|H]; auto.
Qed.

Lemma in_strip (s : str) (x : N) : In x (strip s) -> In x s.
Proof. intros H. apply in_rstrip in H. now apply in_dropwhile in H. Qed.

Lemma in_collapse (s : str) (x : N) :
  In x (collapse s) -> isspace x = false -> In x s.
Proof.
  induction s as [|a s IH]; [tauto|]. rewrite collapse_cons. intros H Hx.
  destruct (isspace a).
  - destruct s as [|a' s]; [destruct H as [<-|[]]; discriminate|].
    destruct (isspace a').
    + right. now apply IH.
    + destruct H as [<-|H]; [discriminate|]. right. now apply IH.
  - destruct H as [->|H]; [now left | right; now apply IH].
Qed.


Lemma brace_tail_in (s : str) : brace_tail s = true -> In 123%N s.
Proof.
  unfold brace_tail. destruct (dropwhile isspace s) as [|c r] eqn:E;
    [discriminate|].
  rewrite andb_true_iff, N.eqb_eq. intros [<- _].
  apply (in_dropwhile isspace). rewrite E. now left.
Qed.

Lemma strip_brace_none (s : str) : ~ In 123%N s -> strip_brace s = s.
Proof.
  induction s as [|c s IH]; intros H; [reflexivity|].
  cbn [strip_brace]. destruct (brace_tail (c :: s)) eqn:E.
  - apply brace_tail_in in E. contradiction.
  - f_equal. apply IH. intros Hin. apply H. now right.
Qed.

Lemma in_strip_brace (s : str) (x : N) : In x (strip_brace s) -> In x s.
Proof.
  induction s as [|c s IH]; cbn [strip_brace].
  - destruct (brace_tail []); intros [].
  - destruct (brace_tail (c :: s)); [intros []|].
    intros [H|H]; [now left | right; now apply IH].
Qed.



Lemma lookup_Some_info (content : str) (i : nat) (l : str) :
  split 10 content !! i = Some l -> is_candidate (strip l) = true ->
  exists r,
    In r (infos content) /\ info_at (split 10 content) i = Some r /\
    forall r', In r' (infos content) ->
      line_number r' = Z.of_nat i + 1 -> r' = r.
Proof.
  intros Hl Hc.
  destruct (info_at_candidate _ _ _ Hl Hc) as (r & Hr & Hn & _).
  exists r. split; [apply infos_elem; eauto|]. split; [exact Hr|].
  intros r' Hr' Hn'.
  apply infos_elem in Hr' as (i' & l' & Hl' & Hc' & Hi').
  destruct (info_at_candidate _ _ _ Hl' Hc') as (r'' & Hr'' & Hn'' & _).
  assert (r'' = r') by congruence. subst r''.
  assert (i' = i) by lia. subst i'. congruence.
Qed.




Example open_decl_signature :
  List.map signature (infos open_decl) = [py "func Open(a int, b string"].
Proof. vm_compute. reflexivity. Qed.

(** ** A declaration on one line *)

Lemma dropwhile_app_stop {A} (p : A -> bool) (a : list A) (c : A)
    (z : list A) :
  p c = false -> dropwhile p (a ++ c :: z) = dropwhile p a ++ c :: z.
Proof.
  intros Hc. induction a as [|x a IH]; simpl.
  - now rewrite Hc.
  - destruct (p x); [exact IH | reflexivity].
Qed.

Lemma collapse_app_stop (a : str) (c : N) (z : str) :
  isspace c = false -> collapse (a ++ c :: z) = collapse a ++ c :: collapse z.
Proof.
  intros Hc. induction a as [|x a IH].
  - cbn [app]. now rewrite collapse_cons, Hc.
  - rewrite <- app_comm_cons, !collapse_cons.
    destruct (isspace x); [|now rewrite IH].
    destruct a as [|x' a]; cbn [app].
    + rewrite Hc, collapse_cons, Hc. reflexivity.
    + cbn [app] in IH. destruct (isspace x'); now rewrite IH.
Qed.

Lemma rstrip_collapse (s : str) : rstrip (collapse s) = collapse (rstrip s).
Proof.
  induction s as [|c s IH]; [reflexivity|].
  rewrite collapse_cons, (rstrip_cons c s).
  destruct (isspace c) eqn:E; cbn [andb].
  - destruct s as [|c' s]; [reflexivity|].
    destruct (isspace c') eqn:E'.
    + rewrite IH. destruct (rstrip (c' :: s)) as [|y r] eqn:R;
        cbn [streq]; [reflexivity|].
      rewrite (collapse_cons c (y :: r)), E.
      assert (y = c').
      { rewrite rstrip_cons in R.
        destruct (isspace c' && streq (rstrip s) []); congruence. }
      subst y. now rewrite E'.
    + assert (R : exists r, rstrip (c' :: s) = c' :: r).
      { rewrite rstrip_cons, E'. cbn [andb]. eauto. }
      destruct R as [r R]. rewrite R. cbn [streq].
      rewrite rstrip_cons, IH, R.
      rewrite (collapse_cons c (c' :: r)), E, E'.
      assert (Hne : collapse (c' :: r) <> []).
      { rewrite collapse_cons, E'. discriminate. }
      destruct (collapse (c' :: r)); [congruence|].
      cbn [streq]. rewrite andb_false_r. reflexivity.
  - rewrite rstrip_cons, E, IH. cbn [andb].
    rewrite collapse_cons, E. reflexivity.
Qed.

Lemma brace_tail_app (t : str) :
  brace_tail (t ++ [123%N]) = streq (rstrip t) [].
Proof.
  unfold brace_tail. rewrite dropwhile_app_stop by reflexivity.
  destruct (dropwhile isspace t) as [|c r] eqn:E; cbn [app].
  - apply rstrip_nil_iff in E. rewrite E. reflexivity.
  - assert (Hc : isspace c = false) by exact (dropwhile_head _ _ _ _ E).
    assert (Hr : rstrip t <> []).
    { intros H. apply rstrip_nil_iff in H. congruence. }
    destruct (rstrip t); [congruence|]. cbn [streq].
    destruct (N.eqb_spec 123 c); [|reflexivity]. cbn [andb].
    rewrite dropwhile_app_stop by reflexivity.
    destruct (dropwhile isspace r); reflexivity.
Qed.

(** A final brace goes with the whitespace before it. *)
Lemma strip_brace_app (t : str) : strip_brace (t ++ [123%N]) = rstrip t.
Proof.
  induction t as [|c t IH]; [reflexivity|].
  rewrite <- app_comm_cons. cbn [strip_brace].
  rewrite app_comm_cons, brace_tail_app, IH.
  rewrite (rstrip_cons c t).
  destruct (streq (rstrip (c :: t)) []) eqn:E.
  - apply streq_eq in E. rewrite rstrip_cons in E.
    destruct (isspace c && streq (rstrip t) []); [reflexivity | discriminate].
  - destruct (isspace c && streq (rstrip t) []) eqn:E'; [|reflexivity].
    rewrite rstrip_cons, E' in E. discriminate.
Qed.

Lemma strip_rstrip (s : str) : strip (rstrip s) = strip s.
Proof.
  unfold strip. rewrite lstrip_rstrip. apply rstrip_idem.
Qed.

Lemma contains_app_r (p a : str) : contains p (a ++ p) = true.
Proof.
  induction a as [|c a IH].
  - cbn [app]. destruct p; simpl; [reflexivity|].
    assert (H : startswith (n :: p) (n :: p) = true)
      by (apply startswith_app; exists []; now rewrite app_nil_r).
    simpl in H. now rewrite H.
  - rewrite <- app_comm_cons. cbn [contains]. rewrite IH. apply orb_true_r.
Qed.

Lemma one_line_signature (l body : str) (rest : list str) :
  is_candidate (strip l) = true -> rstrip l = body ++ py "{" ->
  strip_brace (collapse (strip (join (py " ")
    (sig_scan (l :: rest) true [] 0 false)))) = normalize_ws body.
Proof.
  intros Hc Hb. change (py "{") with [123%N] in Hb.
  assert (Hs : strip l = lstrip body ++ [123%N]).
  { rewrite <- strip_rstrip, Hb. unfold strip, lstrip.
    rewrite dropwhile_app_stop by reflexivity.
    apply rstrip_last_nonspace. reflexivity. }
  unfold is_candidate in Hc. apply andb_true_iff in Hc as [Hf _].
  cbn [sig_scan negb andb]. rewrite Hf.
  change (py "{") with [123%N].
  rewrite Hs at 1. rewrite contains_app_r. cbn [app join].
  rewrite strip_rstrip, Hs.
  rewrite collapse_app_stop by reflexivity. cbn [collapse].
  rewrite strip_brace_app, rstrip_collapse. reflexivity.
Qed.

(** The claim fails for a parameter of type [interface{}]: the braces of
    the type stay in the signature. *)
Lemma one_line_no_brace_fails :
  extract_text 2 interface_decl =
  Done [ {| name := py "Put"; signature := py "func Put(v interface{}) error";
            documentation := []; line_number := 1 |} ] /\
  ~ one_line_no_brace 2 interface_decl 0 interface_decl
      (py "func Put(v interface{}) error ").
Proof.
  split; [vm_compute; reflexivity|].
  intros H. destruct H as (rs & r & Hrs & Hin & _ & Hno & _).
  - vm_compute. lia.
  - vm_compute. reflexivity.
  - vm_compute. reflexivity.
  - vm_compute. reflexivity.
  - vm_compute in Hrs. injection Hrs as <-.
    destruct Hin as [<-|[]]. vm_compute in Hno. discriminate.
Qed.

(** C2, amended: the signature of a declaration line that ends in the
    opening brace is the text of the line before that brace, whitespace
    normalised; it has no brace in it when that text has none. *)
Theorem one_line_signature_text (budget : nat) (content : str) (i : nat)
    (l body : str) :
  (length (split 10 content) < budget)%nat ->
  split 10 content !! i = Some l -> is_candidate (strip l) = true ->
  rstrip l = body ++ py "{" ->
  exists rs r,
    extract_text budget content = Done rs /\ In r rs /\
    line_number r = Z.of_nat i + 1 /\
    signature r = normalize_ws body /\
    (contains (py "{") body = false ->
     contains (py "{") (signature r) = false).
Proof.
  intros Hb Hl Hc Hbody.
  destruct (lookup_Some_info _ _ _ Hl Hc) as (r & Hin & Hr & _).
  destruct (info_at_candidate _ _ _ Hl Hc) as (r' & Hr' & Hn & _ & Hsig & _).
  assert (r' = r) by congruence. subst r'.
  exists (infos content), r.
  split; [now apply extract_text_spec|].
  split; [exact Hin|]. split; [exact Hn|].
  rewrite (drop_S _ _ _ Hl) in Hsig.
  rewrite (one_line_signature _ _ _ Hc Hbody) in Hsig.
  split; [exact Hsig|].
  intros Hno. rewrite Hsig. apply contains_char_false. intros Hx.
  apply in_collapse in Hx; [|reflexivity]. apply in_strip in Hx.
  apply contains_char_false in Hno. contradiction.
Qed.

Lemma one_line_signature_text_witness :
  exists rs r,
    extract_text 3 spaced_decl = Done rs /\ In r rs /\
    line_number r = Z.of_nat 0 + 1 /\
    signature r = normalize_ws (py "  func  Add(a,  b int)   int   ") /\
    (contains (py "{") (py "  func  Add(a,  b int)   int   ") = false ->
     contains (py "{") (signature r) = false).
Proof.
  apply (one_line_signature_text 3 spaced_decl 0
           (py "  func  Add(a,  b int)   int   {  ")).
  - vm_compute. lia.
  - vm_compute. reflexivity.
  - vm_compute. reflexivity.
  - vm_compute. reflexivity.
Defined.

Example spaced_decl_signature :
  List.map signature (infos spaced_decl) = [py "func Add(a, b int) int"].
Proof. vm_compute. reflexivity. Qed.

(** * The claims about the categories *)

Lemma existsb_streq (a : str) (l : list str) :
  existsb (streq a) l = true <-> In a l.
Proof.
  rewrite existsb_exists. split.
  - intros (x & Hx & He). apply streq_eq in He. now subst.
  - intros H. exists a. split; [exact H | now apply streq_eq].
Qed.

Lemma contains_substring (w s : str) : contains w s = true <-> substring w s.
Proof.
  unfold substring. induction s as [|c s IH].
  - simpl. rewrite orb_false_r, startswith_app. split.
    + intros [r H]. exists [], r. exact H.
    + intros (a & b & H). destruct a; [eauto|discriminate].
  - cbn [contains]. rewrite orb_true_iff, startswith_app, IH. split.
    + intros [[r H]|(a & b & H)].
      * exists [], r. exact H.
      * exists (c :: a), b. now rewrite H.
    + intros (a & b & H). destruct a as [|x a].
      * left. eauto.
      * right. injection H as _ H. eauto.
Qed.

Lemma dict_get_values (d : list (str * str)) (key default : str) :
  In (dict_get d key default) (default :: List.map snd d).
Proof.
  induction d as [|[k v] d IH]; [now left|].
  cbn [dict_get List.map snd]. destruct (streq k key).
  - right. now left.
  - destruct IH as [H|H]; [now left | right; now right].
Qed.

Lemma dict_get_found (d : list (str * str)) (key default v : str) :
  List.NoDup (List.map fst d) -> In (key, v) d -> dict_get d key default = v.
Proof.
  induction d as [|[k w] d IH]; intros Hnd Hin; [destruct Hin|].
  cbn [dict_get]. inversion Hnd as [|? ? Hk Hnd']; subst.
  destruct Hin as [[= -> ->]|Hin].
  - assert (H : streq key key = true) by now apply streq_eq.
    now rewrite H.
  - destruct (streq k key) eqn:E; [|now apply IH].
    apply streq_eq in E. subst k. exfalso. apply Hk.
    apply List.in_map_iff. exists (key, v). auto.
Qed.

Lemma dict_get_missing (d : list (str * str)) (key default : str) :
  (forall v, ~ In (key, v) d) -> dict_get d key default = default.
Proof.
  induction d as [|[k w] d IH]; intros Hno; [reflexivity|].
  cbn [dict_get]. destruct (streq k key) eqn:E.
  - apply streq_eq in E. subst k. exfalso. apply (Hno w). now left.
  - apply IH. intros v Hv. apply (Hno v). now right.
Qed.

Lemma all_different_NoDup (l : list str) :
  all_different l = true -> List.NoDup l.
Proof.
  induction l as [|x l IH]; [constructor|].
  cbn [all_different]. rewrite andb_true_iff, negb_true_iff.
  intros [Hx Hl]. constructor; [|now apply IH].
  intros Hin. apply existsb_streq in Hin. congruence.
Qed.

Lemma category_map_keys : List.NoDup (List.map fst category_map).
Proof. apply all_different_NoDup. vm_compute. reflexivity. Qed.

Lemma sub_area_labels (p : str) :
  in_sub_area p ->
  In (categorize_service_file p)
    [ py "Threat Pattern Conditions";
      py "Instance Threat Pattern Evaluation";
      py "Threat Pattern Management" ].
Proof.
  intros H. apply existsb_streq in H. unfold categorize_service_file.
  rewrite H.
  destruct (contains (py "pattern_condition") (PosixPath.stem p));
    [now left|].
  destruct (contains (py "instance_threat_pattern") (PosixPath.stem p));
    [right; now left | right; right; now left].
Qed.

(** C10: the label of every path is one of twelve fixed labels, which are
    all different and none of which is empty. *)
Theorem categorize_label (p : str) :
  In (categorize_service_file p) category_labels /\
  categorize_service_file p <> [] /\
  length category_labels = 12%nat /\
  List.NoDup category_labels.
Proof.
  assert (Hin : In (categorize_service_file p) category_labels).
  { unfold categorize_service_file.
    destruct (existsb _ _).
    - destruct (contains (py "pattern_condition") (PosixPath.stem p));
        [now left|].
      destruct (contains (py "instance_threat_pattern") (PosixPath.stem p));
        [right; now left | right; right; now left].
    - pose proof (dict_get_values category_map (PosixPath.stem p)
                    (py "Miscellaneous")) as H.
      cbn [category_map List.map snd] in H.
      repeat (destruct H as [<-|H]; [cbn; tauto|]).
      destruct H. }
  split; [exact Hin|]. split; [|split; [reflexivity|]].
  - intros He. rewrite He in Hin. cbn in Hin.
    repeat (destruct Hin as [Hin|Hin]; [discriminate|]). destruct Hin.
  - apply all_different_NoDup. vm_compute. reflexivity.
Qed.

(** The claim fails: the files of the sub-area have three labels in all,
    two for a substring of the stem and one for every other stem. *)
Lemma three_stem_patterns_fails :
  categorize_service_file (py "threat_pattern/pattern_condition.go")
    = py "Threat Pattern Conditions" /\
  categorize_service_file (py "threat_pattern/instance_threat_pattern.go")
    = py "Instance Threat Pattern Evaluation" /\
  categorize_service_file (py "threat_pattern/threat_pattern.go")
    = py "Threat Pattern Management" /\
  ~ three_stem_patterns.
Proof.
  split; [vm_compute; reflexivity|].
  split; [vm_compute; reflexivity|].
  split; [vm_compute; reflexivity|].
  intros (s1 & s2 & s3 & l1 & l2 & l3 & l4 & Hnd & _ & Hused).
  assert (Hincl : incl [l1; l2; l3; l4]
            [ py "Threat Pattern Conditions";
              py "Instance Threat Pattern Evaluation";
              py "Threat Pattern Management" ]).
  { intros l Hl. destruct (Hused l Hl) as (p & Hp & <-).
    now apply sub_area_labels. }
  pose proof (List.NoDup_incl_length Hnd Hincl) as Hlen.
  cbn [length] in Hlen. lia.
Qed.

(** C7, amended: the rules are tried in order. If a segment of the path is
    [threat_pattern], the stem decides among three labels: a stem with
    [pattern_condition] in it, else one with [instance_threat_pattern] in
    it, else any other stem. Otherwise the stem is looked up in the table
    of known names, and a stem that is not in the table gives
    [Miscellaneous]. *)
Theorem categorize_rules (p : str) :
  (in_sub_area p ->
     (substring (py "pattern_condition") (PosixPath.stem p) ->
      categorize_service_file p = py "Threat Pattern Conditions") /\
     (~ substring (py "pattern_condition") (PosixPath.stem p) ->
      substring (py "instance_threat_pattern") (PosixPath.stem p) ->
      categorize_service_file p = py "Instance Threat Pattern Evaluation") /\
     (~ substring (py "pattern_condition") (PosixPath.stem p) ->
      ~ substring (py "instance_threat_pattern") (PosixPath.stem p) ->
      categorize_service_file p = py "Threat Pattern Management")) /\
  (~ in_sub_area p ->
     (forall label, In (PosixPath.stem p, label) category_map ->
        categorize_service_file p = label) /\
     ((forall label, ~ In (PosixPath.stem p, label) category_map) ->
        categorize_service_file p = py "Miscellaneous")).
Proof.
  unfold categorize_service_file. split.
  - intros H. apply existsb_streq in H. rewrite H.
    destruct (contains (py "pattern_condition") (PosixPath.stem p)) eqn:E1;
    destruct (contains (py "instance_threat_pattern") (PosixPath.stem p)) eqn:E2;
    repeat split; intros; try reflexivity;
    repeat match goal with
    | H : ~ substring _ _ |- _ =>
        exfalso; apply H; apply contains_substring; assumption
    | H : substring _ _ |- _ => apply contains_substring in H; congruence
    end.
  - intros H.
    destruct (existsb (streq (py "threat_pattern")) (PosixPath.parts p)) eqn:E.
    { apply existsb_streq in E. contradiction. }
    split.
    + intros label Hl. now apply dict_get_found; [apply category_map_keys|].
    + apply dict_get_missing.
Qed.

(** * The claims about the index *)

Section ScanFacts.

Variable fs : str -> read_result.
Variable stdout : str -> option exn.
Variable relpath : str -> str -> str.
Variable budget : nat.

Lemma add_file_done (categories : index) (cat rp : str)
    (fns : list func_info) :
  add_file categories cat rp fns =
  Done (match fns with
        | [] => categories
        | _ :: _ =>
            <[cat := <[rp := fns]> (default ∅ (categories !! cat))]> categories
        end).
Proof.
  unfold add_file. destruct fns as [|f fns]; [reflexivity|].
  destruct (categories !! cat) as [bucket|] eqn:E.
  - rewrite E. reflexivity.
  - rewrite lookup_insert_eq. cbn [default]. now rewrite insert_insert_eq.
Qed.

Lemma add_file_populated (categories categories' : index) (cat rp : str)
    (fns : list func_info) :
  populated categories ->
  add_file categories cat rp fns = Done categories' ->
  populated categories'.
Proof.
  intros Hp. rewrite add_file_done. intros [= <-].
  destruct fns as [|f fns]; [exact Hp|].
  intros cat' bucket'. destruct (decide (cat = cat')) as [<-|Hne].
  - rewrite lookup_insert_eq. intros [= <-]. split.
    + exists rp, (f :: fns). now rewrite lookup_insert_eq.
    + intros path fns'. destruct (decide (rp = path)) as [<-|Hp'].
      * rewrite lookup_insert_eq. now intros [= <-].
      * rewrite lookup_insert_ne by exact Hp'.
        destruct (categories !! cat) as [bucket|] eqn:E; cbn [default].
        -- apply (Hp cat bucket E).
        -- now rewrite lookup_empty.
  - rewrite lookup_insert_ne by exact Hne. apply Hp.
Qed.

(** What the extractor does with a path: the records of the text, or the
    empty list after the message is printed, or the exception of the
    [print]. *)
Lemma extract_go_functions_spec (file_path : str) :
  (forall content, fs file_path = ReadText content ->
     (length (split 10 content) < budget)%nat) ->
  extract_go_functions fs stdout budget file_path =
  match fs file_path with
  | ReadText content => Done (infos content)
  | ReadError e =>
      match stdout (error_message file_path e) with
      | None => Done []
      | Some x => Raised x
      end
  end.
Proof.
  intros Hb. unfold extract_go_functions, print.
  destruct (fs file_path) as [content|e].
  - apply extract_text_spec. now apply Hb.
  - destruct (stdout (error_message file_path e)); reflexivity.
Qed.

Lemma scan_files_populated (service_dir root : str) (files : list str) :
  forall categories categories',
    populated categories ->
    scan_files fs stdout relpath budget service_dir root files categories
      = Done categories' ->
    populated categories'.
Proof.
  induction files as [|file files IH]; intros categories categories' Hp.
  - cbn [scan_files]. now intros [= <-].
  - cbn [scan_files]. destruct (is_go_source file); [|now apply IH].
    destruct (extract_go_functions fs stdout budget (PosixPath.join root file))
      as [fns| |]; cbn [bind]; try discriminate.
    rewrite add_file_done. cbn [bind]. apply IH.
    eapply add_file_populated; [exact Hp | apply add_file_done].
Qed.

Lemma scan_dirs_populated (service_dir : str) (walk : list (str * list str)) :
  forall categories categories',
    populated categories ->
    scan_dirs fs stdout relpath budget service_dir walk categories
      = Done categories' ->
    populated categories'.
Proof.
  induction walk as [|[root files] walk IH]; intros categories categories' Hp.
  - cbn [scan_dirs]. now intros [= <-].
  - cbn [scan_dirs].
    destruct (scan_files fs stdout relpath budget service_dir root files
                categories) as [c1| |] eqn:Hs; cbn [bind]; try discriminate.
    apply IH. eapply scan_files_populated; [exact Hp | exact Hs].
Qed.

(** The scan of the files of one directory returns when the texts fit the
    budget and the error messages can be printed. *)
Lemma scan_files_returns (service_dir root : str) (files : list str) :
  (forall file content, In file files ->
     fs (PosixPath.join root file) = ReadText content ->
     (length (split 10 content) < budget)%nat) ->
  (forall file e, In file files -> is_go_source file = true ->
     fs (PosixPath.join root file) = ReadError e ->
     stdout (error_message (PosixPath.join root file) e) = None) ->
  forall categories,
  exists categories',
    scan_files fs stdout relpath budget service_dir root files categories
      = Done categories'.
Proof.
  induction files as [|file files IH]; intros Hb Hq categories.
  - exists categories. reflexivity.
  - cbn [scan_files].
    assert (Hb' : forall file' content, In file' files ->
              fs (PosixPath.join root file') = ReadText content ->
              (length (split 10 content) < budget)%nat).
    { intros f c Hf. apply Hb. now right. }
    assert (Hq' : forall file' e, In file' files ->
              is_go_source file' = true ->
              fs (PosixPath.join root file') = ReadError e ->
              stdout (error_message (PosixPath.join root file') e) = None).
    { intros f e Hf. apply Hq. now right. }
    destruct (is_go_source file) eqn:Hgo; [|now apply IH].
    rewrite extract_go_functions_spec by (intros c; apply Hb; now left).
    destruct (fs (PosixPath.join root file)) as [content|e] eqn:Hfs.
    + cbn [bind]. rewrite add_file_done. cbn [bind]. now apply IH.
    + rewrite (Hq file e) by (auto; now left).
      cbn [bind]. rewrite add_file_done. cbn [bind]. now apply IH.
Qed.

Lemma scan_dirs_returns (service_dir : str) (walk : list (str * list str)) :
  (forall root files file content, In (root, files) walk -> In file files ->
     fs (PosixPath.join root file) = ReadText content ->
     (length (split 10 content) < budget)%nat) ->
  quiet_errors fs stdout walk ->
  forall categories,
  exists categories',
    scan_dirs fs stdout relpath budget service_dir walk categories
      = Done categories'.
Proof.
  induction walk as [|[root files] walk IH]; intros Hb Hq categories.
  - exists categories. reflexivity.
  - cbn [scan_dirs].
    destruct (scan_files_returns service_dir root files) with categories
      as [c1 ->].
    { intros f c Hf. apply (Hb root files); [now left | exact Hf]. }
    { intros f e Hf. apply (Hq root files); [now left | exact Hf]. }
    cbn [bind]. apply IH.
    + intros r fl f c Hin. apply Hb. now right.
    + intros r fl f e Hin. apply Hq. now right.
Qed.

Lemma populated_empty : populated ∅.
Proof. intros cat bucket H. now rewrite lookup_empty in H. Qed.

End ScanFacts.

(** C6: a file without records leaves the index as it is: no entry and no
    category are made for it. So in an index that the scan returns every
    category has a file and every file has a record. The scan returns an
    index when the texts fit the budget and the message for each file that
    cannot be read can be printed. *)
Theorem scan_index_populated (fs : str -> read_result)
    (stdout : str -> option exn) (relpath : str -> str -> str)
    (budget : nat) (service_dir : str) (walk : list (str * list str)) :
  (forall root files file content, In (root, files) walk -> In file files ->
     fs (PosixPath.join root file) = ReadText content ->
     (length (split 10 content) < budget)%nat) ->
  (forall root file files categories,
     extract_go_functions fs stdout budget (PosixPath.join root file)
       = Done [] ->
     scan_files fs stdout relpath budget service_dir root (file :: files)
       categories
     = scan_files fs stdout relpath budget service_dir root files categories) /\
  (forall categories,
     scan_service_directory fs stdout relpath budget service_dir walk
       = Done categories ->
     populated categories) /\
  (quiet_errors fs stdout walk ->
   exists categories,
     scan_service_directory fs stdout relpath budget service_dir walk
       = Done categories /\
     populated categories).
Proof.
  intros Hb. split; [|split].
  - intros root file files categories He. cbn [scan_files].
    destruct (is_go_source file); [|reflexivity].
    rewrite He. reflexivity.
  - intros categories. unfold scan_service_directory.
    apply scan_dirs_populated, populated_empty.
  - intros Hq. unfold scan_service_directory.
    destruct (scan_dirs_returns fs stdout relpath budget service_dir walk
                Hb Hq ∅) as [categories Hs].
    exists categories. split; [exact Hs|].
    eapply scan_dirs_populated; [apply populated_empty | exact Hs].
Qed.

Lemma demo_budget :
  forall root files file content, In (root, files) demo_walk ->
    In file files -> demo_fs (PosixPath.join root file) = ReadText content ->
    (length (split 10 content) < 4)%nat.
Proof.
  intros root files file content Hw Hf Hfs.
  destruct Hw as [[= <- <-]|[]].
  cbn [In] in Hf.
  repeat (destruct Hf as [<-|Hf];
          [vm_compute in Hfs; try discriminate;
           injection Hfs as <-; vm_compute; lia|]).
  destruct Hf.
Defined.

Lemma demo_quiet : quiet_errors demo_fs demo_stdout demo_walk.
Proof.
  intros root files file e Hw Hf Hgo Hfs.
  destruct Hw as [[= <- <-]|[]].
  cbn [In] in Hf.
  repeat (destruct Hf as [<-|Hf];
          [try (vm_compute in Hgo; discriminate);
           vm_compute in Hfs; try discriminate;
           injection Hfs as <-; vm_compute; reflexivity|]).
  destruct Hf.
Defined.

Lemma scan_index_populated_witness :
  exists categories,
    scan_service_directory demo_fs demo_stdout (fun p _ => p) 4 (py "svc")
      demo_walk = Done categories /\
    populated categories.
Proof.
  exact (proj2 (proj2 (scan_index_populated demo_fs demo_stdout
                         (fun p _ => p) 4 (py "svc") demo_walk demo_budget))
           demo_quiet).
Defined.

(** * Further properties of the extractor *)

Lemma infos_from_length (lines : list str) :
  forall (rest : list str) (k : nat), drop k lines = rest ->
    length (infos_from lines k rest) =
    length (List.filter (fun l => is_candidate (strip l)) rest).
Proof.
  intros rest k H.
  rewrite <- (length_map line_number), (infos_from_lines _ _ _ H).
  clear H. revert k. induction rest as [|l rest IH]; intros k; [reflexivity|].
  cbn [decl_lines List.filter]. rewrite length_app, IH.
  destruct (is_candidate (strip l)); reflexivity.
Qed.

(** X2: there is one record for each declaration line: the number of
    records is the number of lines that, trimmed, match [func], whitespace
    and an uppercase letter. *)
Theorem extract_text_count (budget : nat) (content : str) :
  (length (split 10 content) < budget)%nat ->
  exists rs,
    extract_text budget content = Done rs /\
    length rs =
    length (List.filter (fun l => is_candidate (strip l)) (split 10 content)).
Proof.
  intros Hb. exists (infos content).
  split; [now apply extract_text_spec|].
  unfold infos. now apply infos_from_length.
Qed.

Lemma extract_text_count_witness :
  exists rs,
    extract_text 5 two_decls = Done rs /\
    length rs =
    length (List.filter (fun l => is_candidate (strip l)) (split 10 two_decls)).
Proof. apply extract_text_count. vm_compute. lia. Defined.

(** X3: a text in which no trimmed line starts with [func] and a space
    gives no record; so does the empty text. *)
Theorem extract_text_no_func (budget : nat) (content : str) :
  (length (split 10 content) < budget)%nat ->
  (forall l, In l (split 10 content) ->
     startswith (py "func ") (strip l) = false) ->
  extract_text budget content = Done [].
Proof.
  intros Hb Hno. rewrite extract_text_spec by exact Hb. f_equal.
  apply length_zero_iff_nil. unfold infos.
  rewrite (infos_from_length (split 10 content) (split 10 content) 0%nat
             eq_refl).
  revert Hno. generalize (split 10 content). clear.
  induction l as [|l ls IH]; intros Hno; [reflexivity|].
  cbn [List.filter]. unfold is_candidate at 1.
  rewrite (Hno l) by now left. cbn [andb].
  apply IH. intros l' Hl'. apply Hno. now right.
Qed.

Lemma extract_text_no_func_witness : extract_text 5 comments_only = Done [].
Proof.
  apply extract_text_no_func; [vm_compute; lia|].
  intros l Hl. vm_compute in Hl.
  repeat (destruct Hl as [<-|Hl]; [vm_compute; reflexivity|]).
  destruct Hl.
Defined.

Lemma docs_above_block (above : list str) :
  forall docs,
    docs_above above docs =
    List.map doc_text (rev (List.filter is_comment (doc_block above))) ++ docs.
Proof.
  unfold doc_block. induction above as [|l above IH]; intros docs;
    [reflexivity|].
  cbn [docs_above takewhile]. destruct (is_comment l) eqn:Hc; cbn [orb].
  - cbn [List.filter]. rewrite Hc. cbn [rev].
    rewrite IH, List.map_app, <- app_assoc. reflexivity.
  - destruct (is_blank l); [|reflexivity].
    cbn [List.filter]. rewrite Hc. apply IH.
Qed.

(** X4: the documentation of a record is made of the comment lines of the
    block of comment and blank lines that ends just above the declaration:
    their texts without the marker, trimmed, from top to bottom. *)
Theorem documentation_is_block (budget : nat) (content : str) (i : nat)
    (l : str) :
  (length (split 10 content) < budget)%nat ->
  split 10 content !! i = Some l -> is_candidate (strip l) = true ->
  exists rs r,
    extract_text budget content = Done rs /\ In r rs /\
    line_number r = Z.of_nat i + 1 /\
    documentation r =
    List.map doc_text
      (List.filter is_comment
         (rev (doc_block (rev (take i (split 10 content)))))).
Proof.
  intros Hb Hl Hc.
  destruct (lookup_Some_info _ _ _ Hl Hc) as (r & Hin & Hr & _).
  destruct (info_at_candidate _ _ _ Hl Hc) as (r' & Hr' & Hn & Hd & _).
  assert (r' = r) by congruence. subst r'.
  exists (infos content), r.
  split; [now apply extract_text_spec|].
  split; [exact Hin|]. split; [exact Hn|].
  rewrite Hd, docs_above_block, app_nil_r.
  f_equal. clear. induction (doc_block _) as [|x xs IH]; [reflexivity|].
  cbn [List.filter rev]. rewrite List.filter_app, <- IH. cbn [List.filter].
  destruct (is_comment x); cbn [rev]; [reflexivity | now rewrite app_nil_r].
Qed.

Lemma documentation_is_block_witness :
  exists rs r,
    extract_text 8 doc_gap_text = Done rs /\ In r rs /\
    line_number r = Z.of_nat 5 + 1 /\
    documentation r =
    List.map doc_text
      (List.filter is_comment
         (rev (doc_block (rev (take 5 (split 10 doc_gap_text)))))).
Proof.
  apply (documentation_is_block 8 doc_gap_text 5 (py "func Get(id int) error {")).
  - vm_compute. lia.
  - vm_compute. reflexivity.
  - vm_compute. reflexivity.
Defined.

(** X5: a declaration that follows a line of code (neither a comment nor
    blank), such as the closing brace of the function before it, has no
    documentation; nor has a declaration on the first line. *)
Theorem no_docs_after_code (budget : nat) (content : str) (i : nat)
    (l : str) :
  (length (split 10 content) < budget)%nat ->
  split 10 content !! i = Some l -> is_candidate (strip l) = true ->
  (i = 0%nat \/
   exists x, split 10 content !! (i - 1)%nat = Some x /\ other_line x = true) ->
  exists rs r,
    extract_text budget content = Done rs /\ In r rs /\
    line_number r = Z.of_nat i + 1 /\ documentation r = [].
Proof.
  intros Hb Hl Hc Hprev.
  destruct (lookup_Some_info _ _ _ Hl Hc) as (r & Hin & Hr & _).
  destruct (info_at_candidate _ _ _ Hl Hc) as (r' & Hr' & Hn & Hd & _).
  assert (r' = r) by congruence. subst r'.
  exists (infos content), r.
  split; [now apply extract_text_spec|].
  split; [exact Hin|]. split; [exact Hn|]. rewrite Hd.
  destruct Hprev as [->|(x & Hx & Ho)]; [reflexivity|].
  destruct i as [|j]; [reflexivity|].
  replace (S j - 1)%nat with j in Hx by lia.
  rewrite (take_S_r _ _ _ Hx), rev_app_distr. cbn [rev app].
  now apply docs_above_other.
Qed.

Lemma no_docs_after_code_witness :
  exists rs r,
    extract_text 6 adjacent_decls = Done rs /\ In r rs /\
    line_number r = Z.of_nat 3 + 1 /\ documentation r = [].
Proof.
  apply (no_docs_after_code 6 adjacent_decls 3 (py "func B() {")).
  - vm_compute. lia.
  - vm_compute. reflexivity.
  - vm_compute. reflexivity.
  - right. exists (py "}"). split; vm_compute; reflexivity.
Defined.

Lemma lstrip_idem (s : str) : lstrip (lstrip s) = lstrip s.
Proof.
  unfold lstrip. induction s as [|c s IH]; [reflexivity|].
  simpl. destruct (isspace c) eqn:E; [exact IH|]. simpl. now rewrite E.
Qed.

Lemma strip_idem (s : str) : strip (strip s) = strip s.
Proof.
  unfold strip. rewrite (lstrip_rstrip (lstrip s)), lstrip_idem.
  apply rstrip_idem.
Qed.

(** X6: every line of documentation is trimmed: it has no whitespace at
    its start or at its end. *)
Theorem documentation_trimmed (budget : nat) (content : str) :
  (length (split 10 content) < budget)%nat ->
  exists rs,
    extract_text budget content = Done rs /\
    forall r d, In r rs -> In d (documentation r) -> strip d = d.
Proof.
  intros Hb. exists (infos content).
  split; [now apply extract_text_spec|].
  intros r d Hr Hd. apply infos_elem in Hr as (i & l & Hl & Hc & Hi).
  destruct (info_at_candidate _ _ _ Hl Hc) as (r' & Hr' & _ & Hdoc & _).
  assert (r' = r) by congruence. subst r'.
  rewrite Hdoc, docs_above_block, app_nil_r in Hd.
  apply List.in_map_iff in Hd as (x & <- & _).
  unfold doc_text. apply strip_idem.
Qed.

Lemma documentation_trimmed_witness :
  exists rs,
    extract_text 8 doc_gap_text = Done rs /\
    forall r d, In r rs -> In d (documentation r) -> strip d = d.
Proof. apply documentation_trimmed. vm_compute. lia. Defined.

(** ** The shape of a signature *)

Lemma after_func_shape (s : str) (u : N) (t : str) :
  after_func s = Some (u :: t) ->
  exists c r,
    s = py "func" ++ c :: r /\ isspace c = true /\
    dropwhile isspace r = u :: t.
Proof.
  unfold after_func. destruct (startswith (py "func") s) eqn:E; [|discriminate].
  apply startswith_app in E as [r0 ->].
  change (drop 4 (py "func" ++ r0)) with r0.
  destruct r0 as [|c r]; [discriminate|].
  destruct (isspace c) eqn:Ec; [|discriminate].
  intros [= H]. eauto.
Qed.

Lemma collapse_nospace_app (a b : str) :
  List.Forall (fun x => isspace x = false) a ->
  collapse (a ++ b) = a ++ collapse b.
Proof.
  induction 1 as [|x a Hx _ IH]; [reflexivity|].
  cbn [app]. now rewrite collapse_cons, Hx, IH.
Qed.

Lemma isalnum_plain (c : N) :
  isalnum c = true -> isspace c = false /\ c <> 123%N.
Proof.
  unfold isalnum, isupper, islower, isdigit, isspace. intros H.
  repeat match type of H with
  | (_ || _) = true => apply orb_true_iff in H; destruct H as [H|H]
  end;
  apply andb_true_iff in H as [H1 H2];
  apply N.leb_le in H1; apply N.leb_le in H2;
  (split; [|lia]);
  repeat match goal with
  | |- context [(?a <=? ?b)%N] => destruct (N.leb_spec a b); try lia
  | |- context [(?a =? ?b)%N] => destruct (N.eqb_spec a b); try lia
  end; reflexivity.
Qed.

Lemma takewhile_forall {A} (p : A -> bool) (s : list A) :
  List.Forall (fun x => p x = true) (takewhile p s).
Proof.
  induction s as [|c s IH]; simpl; [constructor|].
  destruct (p c) eqn:E; constructor; assumption.
Qed.

Lemma dropwhile_nil_forall {A} (p : A -> bool) (s : list A) :
  dropwhile p s = [] -> List.Forall (fun x => p x = true) s.
Proof.
  induction s as [|c s IH]; simpl; [constructor|].
  destruct (p c) eqn:E; [|discriminate]. intros H. constructor; auto.
Qed.

(** A tail of whitespace and one brace has no other character. *)
Lemma brace_tail_chars (s : str) :
  brace_tail s = true ->
  List.Forall (fun x => isspace x = true \/ x = 123%N) s.
Proof.
  unfold brace_tail. intros H.
  rewrite <- (takewhile_dropwhile isspace s).
  apply List.Forall_app. split.
  - eapply List.Forall_impl; [|apply takewhile_forall]. simpl. auto.
  - destruct (dropwhile isspace s) as [|c r]; [constructor|].
    apply andb_true_iff in H as [H1 H2].
    apply N.eqb_eq in H1. apply streq_eq in H2. constructor; [auto|].
    eapply List.Forall_impl; [|apply (dropwhile_nil_forall _ _ H2)].
    simpl. auto.
Qed.

Lemma strip_brace_keep (a : str) (c : N) (b : str) :
  isspace c = false -> c <> 123%N ->
  strip_brace (a ++ c :: b) = a ++ c :: strip_brace b.
Proof.
  intros Hs Hb.
  assert (Hno : forall a', brace_tail (a' ++ c :: b) = false).
  { intros a'. destruct (brace_tail (a' ++ c :: b)) eqn:E; [|reflexivity].
    apply brace_tail_chars in E. rewrite List.Forall_forall in E.
    destruct (E c) as [H|H]; [apply in_elt | congruence | contradiction]. }
  induction a as [|x a IH].
  - cbn [app strip_brace]. pose proof (Hno []) as H0. cbn [app] in H0.
    now rewrite H0.
  - rewrite <- app_comm_cons. cbn [strip_brace].
    rewrite app_comm_cons, Hno, IH. reflexivity.
Qed.

Lemma strip_brace_plain (w b : str) :
  List.Forall (fun x => isspace x = false /\ x <> 123%N) w ->
  strip_brace (w ++ b) = w ++ strip_brace b.
Proof.
  induction 1 as [|x w [Hs Hb] _ IH]; [reflexivity|].
  pose proof (strip_brace_keep [] x (w ++ b) Hs Hb) as H0.
  cbn [app] in H0 |- *. now rewrite H0, IH.
Qed.

(** What follows the name in a signature does not start with a letter or
    a digit. *)
Lemma clean_rest_head (t : str) :
  match strip_brace (collapse (dropwhile isalnum t)) with
  | [] => True
  | c :: _ => isalnum c = false
  end.
Proof.
  destruct (dropwhile isalnum t) as [|c d] eqn:E.
  - cbn. exact I.
  - pose proof (dropwhile_head _ _ _ _ E) as Hc.
    assert (Hh : exists h tl, collapse (c :: d) = h :: tl /\ isalnum h = false).
    { destruct (isspace c) eqn:Es.
      - rewrite (collapse_space _ _ Es). eauto.
      - rewrite collapse_cons, Es. eauto. }
    destruct Hh as (h & tl & -> & Hh). cbn [strip_brace].
    destruct (brace_tail (h :: tl)); [exact I | exact Hh].
Qed.

Lemma build_info_shape (l : str) (more docs : list str) (i : Z) :
  is_candidate (strip l) = true ->
  exists info rest,
    build_info (rstrip l :: more) docs i = Some info /\
    signature info = py "func " ++ name info ++ rest /\
    name info = takewhile isalnum (name info ++ rest).
Proof.
  intros Hc. unfold build_info.
  destruct (candidate_after_func _ Hc) as (u & t & Ha & Hu).
  assert (Hj : exists z, join (py " ") (rstrip l :: more) = rstrip l ++ z).
  { destruct more; [exists []; simpl; now rewrite app_nil_r | eauto]. }
  destruct Hj as [z Hj]. rewrite Hj.
  destruct (strip_app_l l z (candidate_nonempty _ Hc)) as [z' Hz].
  pose proof (after_func_app _ z' _ _ Ha) as Ha'.
  rewrite Hz, match_func_name, Ha', Hu.
  rewrite group1_func_name, sub_spaces, sub_brace_end.
  eexists. exists (strip_brace (collapse (dropwhile isalnum (t ++ z')))).
  split; [reflexivity|]. cbn [signature name]. split.
  - destruct (after_func_shape _ _ _ Ha') as (c & r & -> & Hsp & Hr).
    rewrite (collapse_nospace_app (py "func")) by (repeat constructor).
    rewrite (collapse_space _ _ Hsp), Hr.
    rewrite collapse_cons, (isupper_not_space _ Hu).
    set (T := t ++ z').
    rewrite <- (takewhile_dropwhile isalnum T) at 1.
    rewrite collapse_nospace_app.
    2: { eapply List.Forall_impl; [|apply takewhile_forall].
         intros x Hx. now apply isalnum_plain. }
    change (py "func" ++ 32%N :: u :: ?x) with (py "func " ++ u :: x).
    rewrite strip_brace_keep;
      [|now apply isupper_not_space | intros ->; discriminate].
    rewrite strip_brace_plain.
    2: { eapply List.Forall_impl; [|apply takewhile_forall].
         intros x Hx. now apply isalnum_plain. }
    reflexivity.
  - cbn [app takewhile].
    assert (Hau : isalnum u = true) by (unfold isalnum; now rewrite Hu).
    rewrite Hau. f_equal.
    rewrite (takewhile_app_stop isalnum (takewhile isalnum (t ++ z')) _
               (clean_rest_head (t ++ z'))).
    symmetry. apply takewhile_idem.
Qed.

(** X7: the signature of a record starts with [func], one space and the
    name of the record, and the name is all the letters and digits that
    the signature has at that place: what follows the name in the
    signature is not a letter or a digit (the name of the signature
    [func Get_User()] is [Get]). *)
Theorem signature_starts_with_name (budget : nat) (content : str) :
  (length (split 10 content) < budget)%nat ->
  exists rs,
    extract_text budget content = Done rs /\
    forall r, In r rs ->
      exists rest,
        signature r = py "func " ++ name r ++ rest /\
        name r = takewhile isalnum (name r ++ rest) /\
        name r = takewhile isalnum (drop 5 (signature r)).
Proof.
  intros Hb. exists (infos content).
  split; [now apply extract_text_spec|].
  intros r Hr. apply infos_elem in Hr as (i & l & Hl & Hc & Hi).
  unfold info_at in Hi. rewrite (drop_S _ _ _ Hl) in Hi.
  destruct (sig_scan_candidate l (drop (S i) (split 10 content)) Hc)
    as [more Hm].
  rewrite Hm in Hi.
  destruct (build_info_shape l more
              (docs_above (rev (take i (split 10 content))) [])
              (Z.of_nat i) Hc) as (info & rest & Hinfo & Hs & Hn).
  assert (info = r) by congruence. subst info.
  exists rest. split; [exact Hs|]. split; [exact Hn|].
  rewrite Hs. exact Hn.
Qed.

Lemma signature_starts_with_name_witness :
  exists rs,
    extract_text 3 underscore_decl = Done rs /\
    forall r, In r rs ->
      exists rest,
        signature r = py "func " ++ name r ++ rest /\
        name r = takewhile isalnum (name r ++ rest) /\
        name r = takewhile isalnum (drop 5 (signature r)).
Proof. apply signature_starts_with_name. vm_compute. lia. Defined.

Example underscore_decl_signature :
  List.map signature (infos underscore_decl) = [py "func Get_User Names()"].
Proof. vm_compute. reflexivity. Qed.

Lemma collapse_single_spaced (s : str) : single_spaced (collapse s) = true.
Proof.
  induction s as [|c s IH]; [reflexivity|].
  rewrite collapse_cons. destruct (isspace c) eqn:E.
  - destruct s as [|c' s]; [reflexivity|].
    destruct (isspace c') eqn:E'; [exact IH|].
    rewrite collapse_cons, E' in IH |- *.
    cbn [single_spaced] in IH |- *. rewrite E' in IH |- *.
    cbn [isspace negb andb]. exact IH.
  - cbn [single_spaced]. now rewrite E, IH.
Qed.

Lemma single_spaced_fix (s : str) : single_spaced s = true -> collapse s = s.
Proof.
  induction s as [|c s IH]; [reflexivity|].
  cbn [single_spaced]. rewrite andb_true_iff. intros [Hc Hs].
  rewrite collapse_cons, (IH Hs). destruct (isspace c); [|reflexivity].
  apply andb_true_iff in Hc as [Hc Hn]. apply N.eqb_eq in Hc. subst c.
  destruct s as [|c' s]; [reflexivity|].
  apply negb_true_iff in Hn. now rewrite Hn.
Qed.

Lemma single_spaced_prefix (a b : str) :
  single_spaced (a ++ b) = true -> single_spaced a = true.
Proof.
  induction a as [|c a IH]; [reflexivity|].
  cbn [app single_spaced]. rewrite !andb_true_iff. intros [Hc Hs].
  split; [|now apply IH].
  destruct (isspace c); [|reflexivity].
  apply andb_true_iff in Hc as [Hc Hn]. rewrite Hc. cbn [andb].
  destruct a as [|c' a]; [reflexivity | exact Hn].
Qed.

Lemma single_spaced_chars (s : str) (c : N) :
  single_spaced s = true -> In c s -> isspace c = true -> c = 32%N.
Proof.
  induction s as [|x s IH]; [intros _ []|].
  cbn [single_spaced]. rewrite andb_true_iff. intros [Hx Hs] [->|Hin] Hc.
  - rewrite Hc in Hx. apply andb_true_iff in Hx as [Hx _].
    now apply N.eqb_eq in Hx.
  - now apply IH.
Qed.

Lemma strip_brace_prefix (s : str) : exists b, s = strip_brace s ++ b.
Proof.
  induction s as [|c s [b IH]]; cbn [strip_brace].
  - destruct (brace_tail []); exists []; reflexivity.
  - destruct (brace_tail (c :: s)); [exists (c :: s); reflexivity|].
    exists b. cbn [app]. now rewrite <- IH.
Qed.

Lemma strip_brace_nil (s : str) :
  strip_brace s = [] -> s = [] \/ brace_tail s = true.
Proof.
  destruct s as [|c s]; [now left|]. cbn [strip_brace].
  destruct (brace_tail (c :: s)); [now right | discriminate].
Qed.

Lemma brace_tail_space (c : N) (s : str) :
  isspace c = true -> brace_tail (c :: s) = brace_tail s.
Proof. intros H. unfold brace_tail. cbn [dropwhile]. now rewrite H. Qed.

Lemma rstrip_strip_brace (s : str) :
  rstrip s = s -> rstrip (strip_brace s) = strip_brace s.
Proof.
  induction s as [|c s IH]; intros Hr.
  - cbn [strip_brace]. destruct (brace_tail []); reflexivity.
  - cbn [strip_brace]. destruct (brace_tail (c :: s)) eqn:Eb; [reflexivity|].
    rewrite rstrip_cons in Hr |- *.
    destruct (isspace c && streq (rstrip s) []) eqn:E; [discriminate|].
    injection Hr as Hr. rewrite (IH Hr).
    destruct (isspace c) eqn:Ec; [|reflexivity]. cbn [andb] in E |- *.
    destruct (strip_brace s) as [|y ys] eqn:Es; [|reflexivity].
    exfalso. apply strip_brace_nil in Es as [->|Hs].
    + discriminate.
    + rewrite (brace_tail_space _ _ Ec) in Eb. congruence.
Qed.

Lemma lstrip_fix_head (s : str) :
  lstrip s = s <-> match s with [] => True | c :: _ => isspace c = false end.
Proof.
  unfold lstrip. destruct s as [|c s]; [simpl; tauto|].
  cbn [dropwhile]. destruct (isspace c) eqn:E; split; try congruence.
  intros H. exfalso.
  pose proof (f_equal length (takewhile_dropwhile isspace s)) as Hl.
  rewrite length_app, H in Hl. cbn [length] in Hl. lia.
Qed.

Lemma lstrip_strip_brace (s : str) :
  lstrip s = s -> lstrip (strip_brace s) = strip_brace s.
Proof.
  rewrite !lstrip_fix_head. destruct s as [|c s]; cbn [strip_brace].
  - destruct (brace_tail []); tauto.
  - destruct (brace_tail (c :: s)); tauto.
Qed.

Lemma lstrip_collapse (s : str) :
  lstrip s = s -> lstrip (collapse s) = collapse s.
Proof.
  rewrite !lstrip_fix_head. destruct s as [|c s]; [tauto|].
  intros H. now rewrite collapse_cons, H.
Qed.

Lemma lstrip_strip (s : str) : lstrip (strip s) = strip s.
Proof. unfold strip. now rewrite lstrip_rstrip, lstrip_idem. Qed.

Lemma rstrip_strip (s : str) : rstrip (strip s) = strip s.
Proof. unfold strip. apply rstrip_idem. Qed.

(** What lines 107-108 return is normalised. *)
Lemma clean_signature_normal (full : str) :
  let sig := strip_brace (collapse (strip full)) in
  normalize_ws sig = sig /\ single_spaced sig = true.
Proof.
  intros sig.
  assert (Hss : single_spaced sig = true).
  { destruct (strip_brace_prefix (collapse (strip full))) as [b Hb].
    apply (single_spaced_prefix _ b). fold sig in Hb. rewrite <- Hb.
    apply collapse_single_spaced. }
  split; [|exact Hss]. unfold normalize_ws, strip.
  assert (Hl : lstrip sig = sig).
  { apply lstrip_strip_brace, lstrip_collapse, lstrip_strip. }
  assert (Hr : rstrip sig = sig).
  { apply rstrip_strip_brace. now rewrite rstrip_collapse, rstrip_strip. }
  rewrite Hl, Hr. now apply single_spaced_fix.
Qed.

(** X8: every signature is normalised: normalising it again changes
    nothing, so it has no whitespace at either end, and its only
    whitespace characters are single spaces (it is one line). *)
Theorem signature_normalized (budget : nat) (content : str) :
  (length (split 10 content) < budget)%nat ->
  exists rs,
    extract_text budget content = Done rs /\
    forall r, In r rs ->
      normalize_ws (signature r) = signature r /\
      (forall c, In c (signature r) -> isspace c = true -> c = 32%N) /\
      ~ substring (py "  ") (signature r).
Proof.
  intros Hb. exists (infos content).
  split; [now apply extract_text_spec|].
  intros r Hr. apply infos_elem in Hr as (i & l & Hl & Hc & Hi).
  destruct (info_at_candidate _ _ _ Hl Hc) as (r' & Hr' & _ & _ & Hs & _).
  assert (r' = r) by congruence. subst r'. rewrite Hs.
  destruct (clean_signature_normal (join (py " ")
    (sig_scan (drop i (split 10 content)) true [] 0 false))) as [Hn Hss].
  split; [exact Hn|]. split.
  - intros c. now apply single_spaced_chars.
  - intros (a & b & Hab). rewrite Hab in Hss. clear -Hss.
    induction a as [|x a IH].
    + cbn in Hss. discriminate.
    + cbn [app single_spaced] in Hss. apply andb_true_iff in Hss as [_ H].
      now apply IH.
Qed.

Lemma signature_normalized_witness :
  exists rs,
    extract_text 3 spaced_decl = Done rs /\
    forall r, In r rs ->
      normalize_ws (signature r) = signature r /\
      (forall c, In c (signature r) -> isspace c = true -> c = 32%N) /\
      ~ substring (py "  ") (signature r).
Proof. apply signature_normalized. vm_compute. lia. Defined.

(** ** Signatures over several lines *)

Lemma clean_brace_end (x : str) :
  strip_brace (collapse (strip (x ++ [123%N]))) = normalize_ws x.
Proof.
  unfold strip at 1, lstrip. rewrite dropwhile_app_stop by reflexivity.
  rewrite rstrip_last_nonspace by reflexivity.
  rewrite collapse_app_stop by reflexivity. cbn [collapse].
  rewrite strip_brace_app, rstrip_collapse. reflexivity.
Qed.

Lemma join_cons_more (sep p q : str) (ps : list str) :
  join sep (p :: q :: ps) = p ++ sep ++ join sep (q :: ps).
Proof. reflexivity. Qed.

Lemma join_snoc_app (sep : str) (xs : list str) (y z : str) :
  join sep (xs ++ [y ++ z]) = join sep (xs ++ [y]) ++ z.
Proof.
  induction xs as [|x xs IH]; [reflexivity|].
  destruct xs as [|x' xs].
  - cbn [app]. rewrite !join_cons_more. cbn [join].
    now rewrite <- !app_assoc.
  - cbn [app] in IH |- *. rewrite !join_cons_more, IH.
    now rewrite <- !app_assoc.
Qed.

Lemma in_lstrip_nonspace (s : str) (c : N) :
  In c s -> isspace c = false -> In c (lstrip s).
Proof.
  unfold lstrip. induction s as [|x s IH]; [intros []|].
  intros [->|Hin] Hc; cbn [dropwhile].
  - rewrite Hc. now left.
  - destruct (isspace x); [now apply IH | now right].
Qed.

Lemma in_rstrip_nonspace (s : str) (c : N) :
  In c s -> isspace c = false -> In c (rstrip s).
Proof.
  induction s as [|x s IH]; [intros []|].
  intros Hin Hc. rewrite rstrip_cons. destruct Hin as [->|Hin].
  - rewrite Hc. now left.
  - specialize (IH Hin Hc). destruct (rstrip s) as [|y r]; [destruct IH|].
    cbn [streq]. rewrite andb_false_r. now right.
Qed.

Lemma contains_brace_strip (l : str) :
  contains (py "{") (strip l) = contains (py "{") l.
Proof.
  change (py "{") with [123%N].
  destruct (contains [123%N] l) eqn:E.
  - apply contains_char. apply contains_char in E.
    apply in_rstrip_nonspace; [|reflexivity].
    now apply in_lstrip_nonspace.
  - apply contains_char_false. apply contains_char_false in E.
    intros H. apply E. now apply in_strip in H.
Qed.

Lemma startswith_contains (p s : str) :
  startswith p s = true -> contains p s = true.
Proof. intros H. destruct s; cbn [contains]; now rewrite H. Qed.

Lemma next_is_brace_none (pre : list str) (last : str) (post : list str) :
  (forall x, In x pre -> contains (py "{") x = false) ->
  contains (py "{") last = true ->
  startswith (py "{") (strip last) = false ->
  next_is_brace (pre ++ last :: post) = false.
Proof.
  intros Hpre Hlast Hstart. unfold next_is_brace.
  induction pre as [|x pre IH]; cbn [app dropwhile].
  - assert (Hb : is_blank last = false).
    { unfold is_blank. rewrite <- contains_brace_strip in Hlast.
      destruct (strip last); [discriminate | reflexivity]. }
    now rewrite Hb.
  - destruct (is_blank x).
    + apply IH. intros y Hy. apply Hpre. now right.
    + destruct (startswith (py "{") (strip x)) eqn:E; [|reflexivity].
      apply startswith_contains in E.
      rewrite contains_brace_strip, (Hpre x) in E by now left.
      discriminate.
Qed.

(** The forward scan takes the lines up to the first one with a brace,
    when that line does not begin with the brace. *)
Lemma sig_scan_to_brace (last : str) (post : list str) :
  contains (py "{") last = true ->
  startswith (py "{") (strip last) = false ->
  forall (pre : list str) (first : bool) (sig : list str) (paren : Z),
    (forall x, In x pre -> contains (py "{") x = false) ->
    sig_scan (pre ++ last :: post) first sig paren true =
    sig ++ List.map rstrip (pre ++ [last]).
Proof.
  intros Hlast Hstart. induction pre as [|x pre IH];
    intros first sig paren Hpre.
  - cbn [app sig_scan negb andb List.map].
    now rewrite contains_brace_strip, Hlast.
  - cbn [app sig_scan negb andb List.map].
    rewrite contains_brace_strip, (Hpre x) by now left.
    rewrite next_is_brace_none, andb_false_r;
      [|intros y Hy; apply Hpre; now right | assumption | assumption].
    rewrite IH by (intros y Hy; apply Hpre; now right).
    now rewrite <- app_assoc.
Qed.

Lemma sig_scan_start (l : str) (rest : list str) (first : bool)
    (sig : list str) (paren : Z) :
  startswith (py "func ") (strip l) = true ->
  sig_scan (l :: rest) first sig paren false =
  sig_scan (l :: rest) first sig paren true.
Proof. intros H. cbn [sig_scan negb andb]. now rewrite H. Qed.

(** X9: a declaration written over several lines. When the first line
    with a brace ends in that brace and does not begin with it, the
    signature is the text of the lines from the declaration line up to
    that brace, joined by spaces and whitespace normalised. *)
Theorem multi_line_signature (budget : nat) (content : str) (i : nat)
    (l : str) (pre : list str) (last : str) (post : list str) (b : str) :
  (length (split 10 content) < budget)%nat ->
  drop i (split 10 content) = pre ++ last :: post ->
  head (pre ++ [last]) = Some l -> is_candidate (strip l) = true ->
  (forall x, In x pre -> contains (py "{") x = false) ->
  rstrip last = b ++ py "{" ->
  startswith (py "{") (strip last) = false ->
  exists rs r,
    extract_text budget content = Done rs /\ In r rs /\
    line_number r = Z.of_nat i + 1 /\
    signature r = normalize_ws (join (py " ") (List.map rstrip pre ++ [b])).
Proof.
  intros Hb Hd Hh Hc Hpre Hlast Hstart.
  assert (Hl : split 10 content !! i = Some l).
  { destruct pre as [|x pre]; cbn [app head] in Hh, Hd; injection Hh as ->;
      now apply drop_cons_inv in Hd as [Hd _]. }
  destruct (lookup_Some_info _ _ _ Hl Hc) as (r & Hin & Hr & _).
  destruct (info_at_candidate _ _ _ Hl Hc) as (r' & Hr' & Hn & _ & Hsig & _).
  assert (r' = r) by congruence. subst r'.
  exists (infos content), r.
  split; [now apply extract_text_spec|].
  split; [exact Hin|]. split; [exact Hn|].
  rewrite Hsig, Hd.
  assert (Hf : startswith (py "func ") (strip l) = true).
  { unfold is_candidate in Hc. now apply andb_true_iff in Hc as [Hf _]. }
  assert (Hcl : contains (py "{") last = true).
  { change (py "{") with [123%N] in *. apply contains_char.
    apply in_rstrip. rewrite Hlast. apply in_elt. }
  assert (Hs : sig_scan (pre ++ last :: post) true [] 0 false
               = List.map rstrip (pre ++ [last])).
  { destruct pre as [|x pre]; cbn [app head] in Hh; injection Hh as ->;
      cbn [app]; rewrite sig_scan_start by exact Hf.
    - apply (sig_scan_to_brace l post Hcl Hstart [] true [] 0 Hpre).
    - apply (sig_scan_to_brace last post Hcl Hstart (l :: pre)
               true [] 0 Hpre). }
  rewrite Hs, List.map_app. cbn [List.map]. rewrite Hlast.
  change (py "{") with [123%N].
  rewrite join_snoc_app. apply clean_brace_end.
Qed.

Lemma multi_line_signature_witness :
  exists rs r,
    extract_text 6 wrapped_decl = Done rs /\ In r rs /\
    line_number r = Z.of_nat 0 + 1 /\
    signature r =
    normalize_ws (join (py " ")
      (List.map rstrip
         [py "func Create("; py "    name string,"; py "    size int,"]
       ++ [py ") (Item, error) "])).
Proof.
  apply (multi_line_signature 6 wrapped_decl 0 (py "func Create(")
           [py "func Create("; py "    name string,"; py "    size int,"]
           (py ") (Item, error) {") [py "}"]).
  - vm_compute. lia.
  - vm_compute. reflexivity.
  - reflexivity.
  - vm_compute. reflexivity.
  - intros x Hx. cbn [In] in Hx.
    repeat (destruct Hx as [<-|Hx]; [vm_compute; reflexivity|]).
    destruct Hx.
  - vm_compute. reflexivity.
  - vm_compute. reflexivity.
Defined.

Example wrapped_decl_signature :
  List.map signature (infos wrapped_decl) =
  [py "func Create( name string, size int, ) (Item, error)"].
Proof. vm_compute. reflexivity. Qed.

(** * Further properties of the categories and the index *)

(** X10: each of the twelve labels is the label of some path. *)
Theorem category_labels_used (l : str) :
  In l category_labels -> exists p, categorize_service_file p = l.
Proof.
  intros H. cbn [category_labels In] in H.
  destruct H as [<-|[<-|[<-|[<-|[<-|[<-|[<-|[<-|[<-|[<-|[<-|[<-|[]]]]]]]]]]]]].
  - exists (py "service/threat_pattern/pattern_condition.go"). reflexivity.
  - exists (py "service/threat_pattern/instance_threat_pattern.go").
    reflexivity.
  - exists (py "service/threat_pattern/threat_pattern.go"). reflexivity.
  - exists (py "service/control.go"). reflexivity.
  - exists (py "service/domain.go"). reflexivity.
  - exists (py "service/instance.go"). reflexivity.
  - exists (py "service/product.go"). reflexivity.
  - exists (py "service/threat.go"). reflexivity.
  - exists (py "service/relationship.go"). reflexivity.
  - exists (py "service/tag.go"). reflexivity.
  - exists (py "service/threat_resolution.go"). reflexivity.
  - exists (py "service/service.go"). reflexivity.
Qed.

Lemma category_labels_used_witness :
  exists p, categorize_service_file p = py "Tag Management".
Proof.
  apply category_labels_used. cbn [category_labels In]. tauto.
Defined.

Section Provenance.

Variable fs : str -> read_result.
Variable stdout : str -> option exn.
Variable relpath : str -> str -> str.
Variable budget : nat.
Variable service_dir : str.

Lemma add_file_entries (walk : list (str * list str))
    (categories : index) (cat rp : str) (fns : list func_info) :
  entries_from fs stdout relpath budget service_dir walk categories ->
  (fns <> [] -> from_walk fs stdout relpath budget service_dir walk cat rp fns) ->
  forall categories',
    add_file categories cat rp fns = Done categories' ->
    entries_from fs stdout relpath budget service_dir walk categories'.
Proof.
  intros He Hf categories'. rewrite add_file_done. intros [= <-].
  destruct fns as [|f fns]; [exact He|].
  intros cat' bucket' rp' fns'.
  destruct (decide (cat = cat')) as [<-|Hne].
  - rewrite lookup_insert_eq. intros [= <-].
    destruct (decide (rp = rp')) as [<-|Hp].
    + rewrite lookup_insert_eq. intros [= <-]. now apply Hf.
    + rewrite lookup_insert_ne by exact Hp.
      destruct (categories !! cat) as [bucket|] eqn:E; cbn [default].
      * apply (He cat bucket rp' fns' E).
      * now rewrite lookup_empty.
  - rewrite lookup_insert_ne by exact Hne. apply He.
Qed.

Lemma scan_files_entries (walk : list (str * list str)) (root : str)
    (files0 : list str) :
  In (root, files0) walk ->
  forall files, incl files files0 ->
  forall categories categories',
    entries_from fs stdout relpath budget service_dir walk categories ->
    scan_files fs stdout relpath budget service_dir root files categories
      = Done categories' ->
    entries_from fs stdout relpath budget service_dir walk categories'.
Proof.
  intros Hw. induction files as [|file files IH];
    intros Hincl categories categories' He.
  - cbn [scan_files]. now intros [= <-].
  - cbn [scan_files].
    assert (Hincl' : incl files files0).
    { intros x Hx. apply Hincl. now right. }
    destruct (is_go_source file) eqn:Hgo; [|now apply IH].
    destruct (extract_go_functions fs stdout budget (PosixPath.join root file))
      as [fns| |] eqn:Hx; cbn [bind]; try discriminate.
    rewrite add_file_done. cbn [bind]. apply (IH Hincl').
    eapply add_file_entries; [exact He| |apply add_file_done].
    intros Hne. exists root, files0, file.
    repeat split; auto. apply Hincl. now left.
Qed.

Lemma entries_from_mono (walk walk' : list (str * list str))
    (categories : index) :
  incl walk walk' -> entries_from fs stdout relpath budget service_dir walk categories ->
  entries_from fs stdout relpath budget service_dir walk' categories.
Proof.
  intros Hi He cat bucket rp fns Hc Hb.
  destruct (He cat bucket rp fns Hc Hb) as (root & files & file & Hw & H).
  exists root, files, file. split; [now apply Hi | exact H].
Qed.

Lemma scan_dirs_entries (walk0 : list (str * list str)) :
  forall walk, incl walk walk0 ->
  forall categories categories',
    entries_from fs stdout relpath budget service_dir walk0 categories ->
    scan_dirs fs stdout relpath budget service_dir walk categories
      = Done categories' ->
    entries_from fs stdout relpath budget service_dir walk0 categories'.
Proof.
  induction walk as [|[root files] walk IH];
    intros Hincl categories categories' He.
  - cbn [scan_dirs]. now intros [= <-].
  - cbn [scan_dirs].
    destruct (scan_files fs stdout relpath budget service_dir root files categories)
      as [c1| |] eqn:Hs; cbn [bind]; try discriminate.
    apply IH; [intros x Hx; apply Hincl; now right|].
    eapply (scan_files_entries walk0 root files);
      [apply Hincl; now left | apply incl_refl | exact He | exact Hs].
Qed.

End Provenance.

(** X11: every entry of an index that the scan returns comes from a file
    of the walk whose name ends in [.go] and not in [_test.go]: it is
    stored under the category of the path of the file and under its
    relative path, and it is the list, not empty, that the extractor
    returns for the file. The scan returns an index when the texts fit
    the budget and the message for each file that cannot be read can be
    printed. *)
Theorem index_entries_from_sources (fs : str -> read_result)
    (stdout : str -> option exn) (relpath : str -> str -> str)
    (budget : nat) (service_dir : str) (walk : list (str * list str)) :
  (forall root files file content, In (root, files) walk -> In file files ->
     fs (PosixPath.join root file) = ReadText content ->
     (length (split 10 content) < budget)%nat) ->
  (forall categories,
     scan_service_directory fs stdout relpath budget service_dir walk
       = Done categories ->
     forall cat bucket rp fns,
       categories !! cat = Some bucket -> bucket !! rp = Some fns ->
       from_walk fs stdout relpath budget service_dir walk cat rp fns) /\
  (quiet_errors fs stdout walk ->
   exists categories,
     scan_service_directory fs stdout relpath budget service_dir walk
       = Done categories /\
     forall cat bucket rp fns,
       categories !! cat = Some bucket -> bucket !! rp = Some fns ->
       from_walk fs stdout relpath budget service_dir walk cat rp fns).
Proof.
  intros Hb.
  assert (Hinv : forall categories,
    scan_service_directory fs stdout relpath budget service_dir walk
      = Done categories ->
    forall cat bucket rp fns,
      categories !! cat = Some bucket -> bucket !! rp = Some fns ->
      from_walk fs stdout relpath budget service_dir walk cat rp fns).
  { intros categories Hs. unfold scan_service_directory in Hs.
    apply (scan_dirs_entries fs stdout relpath budget service_dir walk walk
             (incl_refl _) ∅ categories); [|exact Hs].
    intros cat bucket rp fns H. now rewrite lookup_empty in H. }
  split; [exact Hinv|]. intros Hq.
  destruct (scan_dirs_returns fs stdout relpath budget service_dir walk
              Hb Hq ∅) as [categories Hs].
  exists categories. split; [exact Hs | now apply Hinv].
Qed.

Lemma index_entries_from_sources_witness :
  exists categories,
    scan_service_directory demo_fs demo_stdout (fun p _ => p) 4 (py "svc")
      demo_walk = Done categories /\
    forall cat bucket rp fns,
      categories !! cat = Some bucket -> bucket !! rp = Some fns ->
      from_walk demo_fs demo_stdout (fun p _ => p) 4 (py "svc") demo_walk
        cat rp fns.
Proof.
  exact (proj2 (index_entries_from_sources demo_fs demo_stdout
                  (fun p _ => p) 4 (py "svc") demo_walk demo_budget)
           demo_quiet).
Defined.

Section Presence.

Variable fs : str -> read_result.
Variable stdout : str -> option exn.
Variable relpath : str -> str -> str.
Variable budget : nat.
Variable service_dir : str.

Lemma add_file_keeps (categories : index) (cat rp : str)
    (fns : list func_info) (cat' rp' : str) :
  has_entry categories cat' rp' ->
  forall categories',
    add_file categories cat rp fns = Done categories' ->
    has_entry categories' cat' rp'.
Proof.
  intros (bucket & fns' & Hc & Hb) categories'.
  rewrite add_file_done. intros [= <-].
  destruct fns as [|f fns]; [exists bucket, fns'; auto|].
  destruct (decide (cat = cat')) as [<-|Hne].
  - rewrite Hc. cbn [default]. exists (<[rp := f :: fns]> bucket).
    destruct (decide (rp = rp')) as [<-|Hp].
    + exists (f :: fns). split; apply lookup_insert_eq.
    + exists fns'. split; [apply lookup_insert_eq|].
      now rewrite lookup_insert_ne by exact Hp.
  - exists bucket, fns'. rewrite lookup_insert_ne by exact Hne. auto.
Qed.

Lemma add_file_adds (categories : index) (cat rp : str)
    (fns : list func_info) :
  fns <> [] ->
  forall categories',
    add_file categories cat rp fns = Done categories' ->
    has_entry categories' cat rp.
Proof.
  intros Hne categories'. rewrite add_file_done. intros [= <-].
  destruct fns as [|f fns]; [congruence|].
  eexists. exists (f :: fns). rewrite !lookup_insert_eq. auto.
Qed.

Lemma scan_files_keeps (root : str) (cat rp : str) :
  forall files categories categories',
    has_entry categories cat rp ->
    scan_files fs stdout relpath budget service_dir root files categories
      = Done categories' ->
    has_entry categories' cat rp.
Proof.
  induction files as [|file files IH]; intros categories categories' He.
  - cbn [scan_files]. now intros [= <-].
  - cbn [scan_files]. destruct (is_go_source file); [|now apply IH].
    destruct (extract_go_functions fs stdout budget (PosixPath.join root file))
      as [fns| |]; cbn [bind]; try discriminate.
    rewrite add_file_done. cbn [bind]. apply IH.
    eapply add_file_keeps; [exact He | apply add_file_done].
Qed.

Lemma scan_files_adds (root file : str) (fns : list func_info) :
  is_go_source file = true ->
  extract_go_functions fs stdout budget (PosixPath.join root file) = Done fns ->
  fns <> [] ->
  forall files categories categories',
    In file files ->
    scan_files fs stdout relpath budget service_dir root files categories
      = Done categories' ->
    has_entry categories'
      (categorize_service_file (PosixPath.join root file))
      (relpath (PosixPath.join root file) service_dir).
Proof.
  intros Hgo Hx Hne. induction files as [|f files IH];
    intros categories categories' Hin; [destruct Hin|].
  cbn [scan_files]. destruct Hin as [->|Hin].
  - rewrite Hgo, Hx. cbn [bind]. rewrite add_file_done. cbn [bind].
    apply scan_files_keeps.
    eapply add_file_adds; [exact Hne | apply add_file_done].
  - destruct (is_go_source f); [|now apply IH].
    destruct (extract_go_functions fs stdout budget (PosixPath.join root f))
      as [fns'| |]; cbn [bind]; try discriminate.
    rewrite add_file_done. cbn [bind]. now apply IH.
Qed.

Lemma scan_dirs_keeps (cat rp : str) :
  forall walk categories categories',
    has_entry categories cat rp ->
    scan_dirs fs stdout relpath budget service_dir walk categories
      = Done categories' ->
    has_entry categories' cat rp.
Proof.
  induction walk as [|[root files] walk IH]; intros categories categories' He.
  - cbn [scan_dirs]. now intros [= <-].
  - cbn [scan_dirs].
    destruct (scan_files fs stdout relpath budget service_dir root files categories)
      as [c1| |] eqn:Hs; cbn [bind]; try discriminate.
    apply IH. eapply scan_files_keeps; [exact He | exact Hs].
Qed.

Lemma scan_dirs_adds (root file : str) (files : list str)
    (fns : list func_info) :
  is_go_source file = true ->
  extract_go_functions fs stdout budget (PosixPath.join root file) = Done fns ->
  fns <> [] -> In file files ->
  forall walk categories categories',
    In (root, files) walk ->
    scan_dirs fs stdout relpath budget service_dir walk categories
      = Done categories' ->
    has_entry categories'
      (categorize_service_file (PosixPath.join root file))
      (relpath (PosixPath.join root file) service_dir).
Proof.
  intros Hgo Hx Hne Hf. induction walk as [|[r fl] walk IH];
    intros categories categories' Hin; [destruct Hin|].
  cbn [scan_dirs].
  destruct (scan_files fs stdout relpath budget service_dir r fl categories)
    as [c1| |] eqn:Hs; cbn [bind]; try discriminate.
  destruct Hin as [[= -> ->]|Hin].
  - apply scan_dirs_keeps.
    eapply scan_files_adds; [exact Hgo | exact Hx | exact Hne | exact Hf
                            | exact Hs].
  - now apply IH.
Qed.

End Presence.

(** X12: no source file with functions is left out of an index that the
    scan returns: for every file of the walk whose name ends in [.go] and
    not in [_test.go] and for which the extractor returns a list that is
    not empty, the index has an entry under the category of its path and
    under its relative path; the entry is that list when no other source
    file of the walk has the same category and relative path. The scan
    returns an index when the texts fit the budget and the message for
    each file that cannot be read can be printed. *)
Theorem index_has_every_source (fs : str -> read_result)
    (stdout : str -> option exn) (relpath : str -> str -> str)
    (budget : nat) (service_dir : str) (walk : list (str * list str)) :
  (forall root files file content, In (root, files) walk -> In file files ->
     fs (PosixPath.join root file) = ReadText content ->
     (length (split 10 content) < budget)%nat) ->
  (forall categories,
     scan_service_directory fs stdout relpath budget service_dir walk
       = Done categories ->
     forall root files file fns,
       In (root, files) walk -> In file files -> is_go_source file = true ->
       extract_go_functions fs stdout budget (PosixPath.join root file)
         = Done fns ->
       fns <> [] ->
       has_entry categories
         (categorize_service_file (PosixPath.join root file))
         (relpath (PosixPath.join root file) service_dir) /\
       (sole_source relpath service_dir walk (PosixPath.join root file) ->
        exists bucket,
          categories !! categorize_service_file (PosixPath.join root file)
            = Some bucket /\
          bucket !! relpath (PosixPath.join root file) service_dir
            = Some fns)) /\
  (quiet_errors fs stdout walk ->
   exists categories,
     scan_service_directory fs stdout relpath budget service_dir walk
       = Done categories).
Proof.
  intros Hb. split.
  - intros categories Hs root files file fns Hw Hf Hgo Hx Hne.
    unfold scan_service_directory in Hs.
    assert (He : has_entry categories
              (categorize_service_file (PosixPath.join root file))
              (relpath (PosixPath.join root file) service_dir)).
    { eapply scan_dirs_adds; eauto. }
    split; [exact He|]. intros Hsole.
    destruct He as (bucket & fns' & Hc & Hb').
    exists bucket. split; [exact Hc|]. rewrite Hb'. f_equal.
    assert (Hfrom : from_walk fs stdout relpath budget service_dir walk
              (categorize_service_file (PosixPath.join root file))
              (relpath (PosixPath.join root file) service_dir) fns').
    { apply (scan_dirs_entries fs stdout relpath budget service_dir walk walk
               (incl_refl _) ∅ categories) with bucket;
        [|exact Hs | exact Hc | exact Hb'].
      intros cat bkt rp fs' H. now rewrite lookup_empty in H. }
    destruct Hfrom as (r' & fl' & f' & Hw' & Hf' & Hgo' & Hcat & Hrp & Hx' & _).
    rewrite <- (Hsole r' fl' f' Hw' Hf' Hgo' (eq_sym Hcat) (eq_sym Hrp)) in Hx.
    congruence.
  - intros Hq. unfold scan_service_directory.
    apply (scan_dirs_returns fs stdout relpath budget service_dir walk Hb Hq).
Qed.

Lemma index_has_every_source_witness :
  exists categories,
    scan_service_directory demo_fs demo_stdout (fun p _ => p) 4 (py "svc")
      demo_walk = Done categories.
Proof.
  exact (proj2 (index_has_every_source demo_fs demo_stdout
                  (fun p _ => p) 4 (py "svc") demo_walk demo_budget)
           demo_quiet).
Defined.

(** ** Counting the functions *)

Lemma func_count_insert (cat_files : gmap str (list func_info)) (k : str)
    (v : list func_info) :
  cat_files !! k = None ->
  func_count (<[k := v]> cat_files) = len v + func_count cat_files.
Proof.
  intros H. unfold func_count.
  rewrite map_fold_insert_L; [reflexivity | intros; lia | exact H].
Qed.

Lemma total_functions_insert (categories : index) (k : str)
    (v : gmap str (list func_info)) :
  categories !! k = None ->
  total_functions (<[k := v]> categories) =
  func_count v + total_functions categories.
Proof.
  intros H. unfold total_functions.
  rewrite map_fold_insert_L; [reflexivity | intros; lia | exact H].
Qed.

Lemma func_count_lower (cat_files : gmap str (list func_info)) :
  0 <= func_count cat_files /\
  forall path fns, cat_files !! path = Some fns ->
    len fns <= func_count cat_files.
Proof.
  induction cat_files as [|k v m Hk IH] using map_ind.
  - split; [reflexivity|]. intros path fns H. now rewrite lookup_empty in H.
  - destruct IH as [IH0 IH]. rewrite (func_count_insert _ _ _ Hk).
    unfold len at 1. split; [lia|].
    intros path fns. destruct (decide (k = path)) as [<-|Hne].
    + rewrite lookup_insert_eq. intros [= <-]. unfold len. lia.
    + rewrite lookup_insert_ne by exact Hne. intros H.
      specialize (IH _ _ H). unfold len in *. lia.
Qed.

Lemma populated_insert (categories : index) (k : str)
    (v : gmap str (list func_info)) :
  categories !! k = None -> populated (<[k := v]> categories) ->
  populated categories /\
  exists path fns, v !! path = Some fns /\ fns <> [].
Proof.
  intros Hk Hp. split.
  - intros cat bucket H. apply (Hp cat bucket).
    rewrite lookup_insert_ne; [exact H|]. intros ->. congruence.
  - apply (Hp k v). apply lookup_insert_eq.
Qed.

Lemma populated_total (categories : index) :
  populated categories ->
  Z.of_nat (size categories) <= total_functions categories.
Proof.
  induction categories as [|k v m Hk IH] using map_ind; intros Hp.
  - rewrite map_size_empty. reflexivity.
  - apply populated_insert in Hp as [Hp (path & fns & Hf & Hne)];
      [|exact Hk].
    rewrite (map_size_insert_None _ _ _ Hk), (total_functions_insert _ _ _ Hk).
    specialize (IH Hp).
    destruct (func_count_lower v) as [_ Hl]. specialize (Hl _ _ Hf).
    assert (1 <= len fns).
    { unfold len. destruct fns; [congruence | cbn [length]; lia]. }
    lia.
Qed.

(** X13: the counts that the report and the summary show. In an index
    that the scan returns there are at least as many functions as
    categories; so when the index is not empty (the summary is printed and
    the report written) the total is not zero. The scan returns an index
    when the texts fit the budget and the message for each file that
    cannot be read can be printed. *)
Theorem scan_totals (fs : str -> read_result)
    (stdout : str -> option exn) (relpath : str -> str -> str)
    (budget : nat) (service_dir : str) (walk : list (str * list str)) :
  (forall root files file content, In (root, files) walk -> In file files ->
     fs (PosixPath.join root file) = ReadText content ->
     (length (split 10 content) < budget)%nat) ->
  (forall categories,
     scan_service_directory fs stdout relpath budget service_dir walk
       = Done categories ->
     Z.of_nat (size categories) <= total_functions categories /\
     (categories <> ∅ -> 0 < total_functions categories) /\
     (forall cat cat_files, categories !! cat = Some cat_files ->
        0 < func_count cat_files)) /\
  (quiet_errors fs stdout walk ->
   exists categories,
     scan_service_directory fs stdout relpath budget service_dir walk
       = Done categories /\
     Z.of_nat (size categories) <= total_functions categories /\
     (categories <> ∅ -> 0 < total_functions categories) /\
     (forall cat cat_files, categories !! cat = Some cat_files ->
        0 < func_count cat_files)).
Proof.
  intros Hb.
  assert (Hinv : forall categories,
    scan_service_directory fs stdout relpath budget service_dir walk
      = Done categories ->
    Z.of_nat (size categories) <= total_functions categories /\
    (categories <> ∅ -> 0 < total_functions categories) /\
    (forall cat cat_files, categories !! cat = Some cat_files ->
       0 < func_count cat_files)).
  { intros categories Hs. unfold scan_service_directory in Hs.
    assert (Hp : populated categories).
    { eapply scan_dirs_populated; [apply populated_empty | exact Hs]. }
    pose proof (populated_total _ Hp) as Ht.
    split; [exact Ht|]. split.
    - intros Hne. assert (size categories <> 0%nat).
      { intros H0. now apply map_size_empty_inv in H0. }
      lia.
    - intros cat cat_files Hc.
      destruct (Hp cat cat_files Hc) as [(path & fns & Hf & Hne) _].
      destruct (func_count_lower cat_files) as [_ Hl].
      specialize (Hl _ _ Hf).
      unfold len in Hl. destruct fns; [congruence | cbn [length] in Hl; lia]. }
  split; [exact Hinv|]. intros Hq.
  destruct (scan_dirs_returns fs stdout relpath budget service_dir walk
              Hb Hq ∅) as [categories Hs].
  exists categories. split; [exact Hs | now apply Hinv].
Qed.

Lemma scan_totals_witness :
  exists categories,
    scan_service_directory demo_fs demo_stdout (fun p _ => p) 4 (py "svc")
      demo_walk = Done categories /\
    Z.of_nat (size categories) <= total_functions categories /\
    (categories <> ∅ -> 0 < total_functions categories) /\
    (forall cat cat_files, categories !! cat = Some cat_files ->
       0 < func_count cat_files).
Proof.
  exact (proj2 (scan_totals demo_fs demo_stdout (fun p _ => p) 4 (py "svc")
                  demo_walk demo_budget)
           demo_quiet).
Defined.

(** ** The name and the line of a record *)

Lemma rstrip_head (c : N) (z : str) :
  match rstrip (c :: z) with [] => True | x :: _ => x = c end.
Proof.
  rewrite rstrip_cons. destruct (isspace c && streq (rstrip z) []);
    [exact I | reflexivity].
Qed.

(** The text joined after the first line starts with the space of the
    join, if there is any. *)
Lemma strip_join_l (l : str) (more : list str) :
  strip l <> [] ->
  exists z',
    strip (join (py " ") (rstrip l :: more)) = strip l ++ z' /\
    match z' with [] => True | c :: _ => c = 32%N end.
Proof.
  intros Hne. destruct more as [|m more].
  - exists []. cbn [join]. now rewrite strip_rstrip, app_nil_r.
  - rewrite join_cons_more. set (z := py " " ++ join (py " ") (m :: more)).
    unfold strip at 1, lstrip.
    assert (Hd : dropwhile isspace (rstrip l) <> []).
    { fold (lstrip (rstrip l)). rewrite lstrip_rstrip. exact Hne. }
    rewrite (dropwhile_app_l _ _ _ Hd). fold (lstrip (rstrip l)).
    rewrite lstrip_rstrip. fold (strip l). rewrite rstrip_app.
    destruct (streq (rstrip z) []).
    + exists []. now rewrite rstrip_strip, app_nil_r.
    + exists (rstrip z). split; [reflexivity|].
      exact (rstrip_head 32 (join (py " ") (m :: more))).
Qed.

Lemma build_info_name (l : str) (more docs : list str) (i : Z) (u : N)
    (t : str) :
  is_candidate (strip l) = true -> after_func (strip l) = Some (u :: t) ->
  exists info,
    build_info (rstrip l :: more) docs i = Some info /\
    name info = u :: takewhile isalnum t.
Proof.
  intros Hc Ha. unfold build_info.
  destruct (candidate_after_func _ Hc) as (u' & t' & Ha' & Hu).
  assert (u' = u /\ t' = t) as [-> ->] by (split; congruence).
  destruct (strip_join_l l more (candidate_nonempty _ Hc)) as (z' & Hz & Hh).
  rewrite Hz, match_func_name, (after_func_app _ z' _ _ Ha), Hu.
  rewrite group1_func_name. eexists. split; [reflexivity|].
  cbn [name]. f_equal. apply takewhile_app_stop.
  destruct z' as [|c z']; [exact I|]. now subst c.
Qed.

(** X14: the name of a record is read from the declaration line alone:
    it is the uppercase letter that follows [func] and the whitespace
    after it, with the letters and digits that come next; an underscore or
    any other character ends it, and so does the end of the line. *)
Theorem name_from_declaration_line (budget : nat) (content : str) (i : nat)
    (l : str) (u : N) (t : str) :
  (length (split 10 content) < budget)%nat ->
  split 10 content !! i = Some l -> is_candidate (strip l) = true ->
  after_func (strip l) = Some (u :: t) ->
  exists rs r,
    extract_text budget content = Done rs /\ In r rs /\
    line_number r = Z.of_nat i + 1 /\
    name r = u :: takewhile isalnum t.
Proof.
  intros Hb Hl Hc Ha.
  destruct (lookup_Some_info _ _ _ Hl Hc) as (r & Hin & Hr & _).
  destruct (info_at_candidate _ _ _ Hl Hc) as (r' & Hr' & Hn & _).
  assert (r' = r) by congruence. subst r'.
  exists (infos content), r.
  split; [now apply extract_text_spec|].
  split; [exact Hin|]. split; [exact Hn|].
  unfold info_at in Hr. rewrite (drop_S _ _ _ Hl) in Hr.
  destruct (sig_scan_candidate l (drop (S i) (split 10 content)) Hc)
    as [more Hm].
  rewrite Hm in Hr.
  destruct (build_info_name l more
              (docs_above (rev (take i (split 10 content))) [])
              (Z.of_nat i) u t Hc Ha) as (info & Hinfo & Hname).
  congruence.
Qed.

Lemma name_from_declaration_line_witness :
  exists rs r,
    extract_text 3 underscore_decl = Done rs /\ In r rs /\
    line_number r = Z.of_nat 0 + 1 /\
    name r = 71%N :: takewhile isalnum (py "et_User").
Proof.
  apply (name_from_declaration_line 3 underscore_decl 0 (py "func Get_User")).
  - vm_compute. lia.
  - vm_compute. reflexivity.
  - vm_compute. reflexivity.
  - vm_compute. reflexivity.
Defined.

Example underscore_decl_name :
  List.map name (infos underscore_decl) = [py "Get"].
Proof. vm_compute. reflexivity. Qed.

(** X15: the line number of a record is the 1-based number of a line of
    the text, and that line, trimmed, starts with [func], a space, and
    matches [func], whitespace and an uppercase letter. *)
Theorem line_number_points_at_declaration (budget : nat) (content : str) :
  (length (split 10 content) < budget)%nat ->
  exists rs,
    extract_text budget content = Done rs /\
    forall r, In r rs ->
      exists (i : nat) (l : str),
        line_number r = Z.of_nat i + 1 /\
        1 <= line_number r <= len (split 10 content) /\
        split 10 content !! i = Some l /\
        startswith (py "func ") (strip l) = true /\
        Re.matched (Re.rmatch pat_func_upper (strip l)) = true.
Proof.
  intros Hb. exists (infos content).
  split; [now apply extract_text_spec|].
  intros r Hr. apply infos_elem in Hr as (i & l & Hl & Hc & Hi).
  destruct (info_at_candidate _ _ _ Hl Hc) as (r' & Hr' & Hn & _).
  assert (r' = r) by congruence. subst r'.
  exists i, l. split; [exact Hn|].
  pose proof (lookup_lt_Some _ _ _ Hl) as Hlt.
  split; [unfold len; lia|]. split; [exact Hl|].
  unfold is_candidate in Hc. now apply andb_true_iff in Hc.
Qed.

Lemma line_number_points_at_declaration_witness :
  exists rs,
    extract_text 5 two_decls = Done rs /\
    forall r, In r rs ->
      exists (i : nat) (l : str),
        line_number r = Z.of_nat i + 1 /\
        1 <= line_number r <= len (split 10 two_decls) /\
        split 10 two_decls !! i = Some l /\
        startswith (py "func ") (strip l) = true /\
        Re.matched (Re.rmatch pat_func_upper (strip l)) = true.
Proof. apply line_number_points_at_declaration. vm_compute. lia. Defined.

(** ** The brace on a line of its own *)

Lemma blank_rstrip (x : str) : is_blank x = true -> rstrip x = [].
Proof.
  unfold is_blank. intros H. apply streq_eq in H.
  change (py "") with (@nil N) in H. unfold strip in H.
  apply rstrip_nil_iff in H. fold (lstrip (lstrip x)) in H.
  rewrite lstrip_idem in H. now apply rstrip_nil_iff.
Qed.

Lemma blank_strip (x : str) : is_blank x = true -> strip x = [].
Proof. unfold is_blank. intros H. now apply streq_eq in H. Qed.

Lemma next_is_brace_after_blanks (blanks : list str) (br : str)
    (post : list str) :
  List.Forall (fun x => is_blank x = true) blanks -> strip br = py "{" ->
  next_is_brace (blanks ++ br :: post) = true.
Proof.
  intros Hb Hbr. unfold next_is_brace.
  induction Hb as [|x blanks Hx _ IH]; cbn [app dropwhile].
  - assert (Hnb : is_blank br = false)
      by (unfold is_blank; rewrite Hbr; reflexivity).
    rewrite Hnb, Hbr. reflexivity.
  - now rewrite Hx.
Qed.

(** After the declaration line the scan adds empty lines and then, at the
    latest, the line of the brace. *)
Lemma sig_scan_blanks (br : str) (post : list str) :
  strip br = py "{" ->
  forall (blanks : list str) (sig : list str) (paren : Z),
    List.Forall (fun x => is_blank x = true) blanks ->
    exists n,
      sig_scan (blanks ++ br :: post) false sig paren true
        = sig ++ repeat [] n \/
      sig_scan (blanks ++ br :: post) false sig paren true
        = sig ++ repeat [] n ++ [rstrip br].
Proof.
  intros Hbr. induction blanks as [|x blanks IH]; intros sig paren Hb.
  - exists 0%nat. right. cbn [app sig_scan negb andb repeat].
    rewrite Hbr. reflexivity.
  - inversion Hb as [|? ? Hx Hb']; subst.
    cbn [app sig_scan negb andb].
    rewrite (blank_strip _ Hx), (blank_rstrip _ Hx).
    cbn [contains startswith orb count].
    rewrite (next_is_brace_after_blanks _ _ _ Hb' Hbr), andb_true_r.
    destruct (paren + (0 - 0) =? 0).
    + exists 1%nat. left. reflexivity.
    + destruct (IH (sig ++ [[]]) (paren + (0 - 0)) Hb') as [n [H|H]];
        exists (S n); [left | right]; rewrite H, <- app_assoc; reflexivity.
Qed.

Lemma join_empty_lines (a : str) (n : nat) :
  join (py " ") (a :: repeat [] n) = a ++ repeat 32%N n.
Proof.
  revert a. induction n as [|n IH]; intros a.
  - cbn. now rewrite app_nil_r.
  - cbn [repeat]. rewrite join_cons_more, IH. reflexivity.
Qed.

Lemma join_empty_lines_last (a b : str) (n : nat) :
  join (py " ") (a :: repeat [] n ++ [b]) = a ++ repeat 32%N (S n) ++ b.
Proof.
  revert a. induction n as [|n IH]; intros a.
  - reflexivity.
  - cbn [repeat app]. rewrite join_cons_more, IH. reflexivity.
Qed.

Lemma strip_app_spaces (a w : str) :
  strip a <> [] -> List.Forall (fun c => isspace c = true) w ->
  strip (rstrip a ++ w) = strip a.
Proof.
  intros Hne Hw. unfold strip at 1, lstrip.
  assert (Hd : dropwhile isspace (rstrip a) <> []).
  { fold (lstrip (rstrip a)). rewrite lstrip_rstrip. exact Hne. }
  rewrite (dropwhile_app_l _ _ _ Hd). fold (lstrip (rstrip a)).
  rewrite lstrip_rstrip. fold (strip a). rewrite rstrip_app.
  assert (Hr : rstrip w = []).
  { apply rstrip_nil_iff. induction Hw as [|c w Hc _ IH]; [reflexivity|].
    cbn [dropwhile]. now rewrite Hc. }
  rewrite Hr. cbn [streq]. apply rstrip_strip.
Qed.

Lemma forall_space_repeat (n : nat) :
  List.Forall (fun c => isspace c = true) (repeat 32%N n).
Proof. induction n; cbn [repeat]; constructor; auto. Qed.

(** X16: the opening brace on a line of its own. When the declaration is
    on one line without a brace, and the next line that is not blank is
    the brace alone, the signature is the declaration line, whitespace
    normalised, however many blank lines lie between the two. *)
Theorem brace_on_next_line (budget : nat) (content : str) (i : nat)
    (l : str) (blanks : list str) (br : str) (post : list str) :
  (length (split 10 content) < budget)%nat ->
  drop i (split 10 content) = l :: blanks ++ br :: post ->
  is_candidate (strip l) = true -> contains (py "{") l = false ->
  List.Forall (fun x => is_blank x = true) blanks ->
  strip br = py "{" ->
  exists rs r,
    extract_text budget content = Done rs /\ In r rs /\
    line_number r = Z.of_nat i + 1 /\
    signature r = normalize_ws l.
Proof.
  intros Hb Hd Hc Hno Hbl Hbr.
  assert (Hl : split 10 content !! i = Some l)
    by now apply drop_cons_inv in Hd as [Hd _].
  destruct (lookup_Some_info _ _ _ Hl Hc) as (r & Hin & Hr & _).
  destruct (info_at_candidate _ _ _ Hl Hc) as (r' & Hr' & Hn & _ & Hsig & _).
  assert (r' = r) by congruence. subst r'.
  exists (infos content), r.
  split; [now apply extract_text_spec|].
  split; [exact Hin|]. split; [exact Hn|].
  rewrite Hsig, Hd.
  assert (Hf : startswith (py "func ") (strip l) = true).
  { unfold is_candidate in Hc. now apply andb_true_iff in Hc as [Hf _]. }
  rewrite sig_scan_start by exact Hf.
  cbn [sig_scan negb andb]. rewrite contains_brace_strip, Hno.
  rewrite andb_false_r. cbn [andb app].
  pose proof (candidate_nonempty _ Hc) as Hne.
  destruct (sig_scan_blanks br post Hbr blanks [rstrip l]
              (0 + (count 40 (strip l) - count 41 (strip l))) Hbl)
    as [n [H|H]]; rewrite H; cbn [app].
  - rewrite join_empty_lines.
    rewrite (strip_app_spaces _ _ Hne (forall_space_repeat n)).
    apply strip_brace_none. intros Hx.
    apply in_collapse in Hx; [|reflexivity]. apply in_strip in Hx.
    change (py "{") with [123%N] in Hno.
    apply contains_char_false in Hno. contradiction.
  - rewrite join_empty_lines_last.
    assert (Hw : exists w, rstrip br = w ++ [123%N] /\
                   List.Forall (fun c => isspace c = true) w).
    { exists (takewhile isspace (rstrip br)). split.
      - rewrite <- (takewhile_dropwhile isspace (rstrip br)) at 1.
        f_equal. fold (lstrip (rstrip br)).
        rewrite lstrip_rstrip. exact Hbr.
      - apply takewhile_forall. }
    destruct Hw as (w & -> & Hw).
    rewrite !app_assoc, clean_brace_end. unfold normalize_ws.
    rewrite <- app_assoc, strip_app_spaces; [reflexivity | exact Hne |].
    apply List.Forall_app. split; [apply forall_space_repeat | exact Hw].
Qed.

Lemma brace_on_next_line_witness :
  exists rs r,
    extract_text 6 allman_decl = Done rs /\ In r rs /\
    line_number r = Z.of_nat 0 + 1 /\
    signature r = normalize_ws (py "func  Run(a int)  error").
Proof.
  apply (brace_on_next_line 6 allman_decl 0 (py "func  Run(a int)  error")
           [py "  "; py ""] (py "  {") [py "}"]).
  - vm_compute. lia.
  - vm_compute. reflexivity.
  - vm_compute. reflexivity.
  - vm_compute. reflexivity.
  - repeat constructor.
  - vm_compute. reflexivity.
Defined.

(** ** The outcome of a scan *)

Section Outcome.

Variable fs : str -> read_result.
Variable stdout : str -> option exn.
Variable relpath : str -> str -> str.
Variable budget : nat.
Variable service_dir : str.

(** The scan of the files of one directory: it returns only if each
    message could be printed, what it raises is the exception of a
    [print], and it stays within the budget. *)
Lemma scan_files_outcome (root : str) (files : list str) :
  (forall file content, In file files ->
     fs (PosixPath.join root file) = ReadText content ->
     (length (split 10 content) < budget)%nat) ->
  forall categories,
    match scan_files fs stdout relpath budget service_dir root files
            categories with
    | Done _ =>
        forall file e, In file files -> is_go_source file = true ->
          fs (PosixPath.join root file) = ReadError e ->
          stdout (error_message (PosixPath.join root file) e) = None
    | Raised x =>
        exists file e, In file files /\ is_go_source file = true /\
          fs (PosixPath.join root file) = ReadError e /\
          stdout (error_message (PosixPath.join root file) e) = Some x
    | Timeout => False
    end.
Proof.
  induction files as [|file files IH]; intros Hb categories.
  - cbn [scan_files]. intros file e [].
  - assert (Hb' : forall file' content, In file' files ->
              fs (PosixPath.join root file') = ReadText content ->
              (length (split 10 content) < budget)%nat).
    { intros f c Hf. apply Hb. now right. }
    cbn [scan_files]. destruct (is_go_source file) eqn:Hgo.
    + rewrite extract_go_functions_spec by (intros c; apply Hb; now left).
      destruct (fs (PosixPath.join root file)) as [content|e] eqn:Hfs.
      * cbn [bind]. rewrite add_file_done. cbn [bind].
        specialize (IH Hb'
          (match infos content with
           | [] => categories
           | _ :: _ =>
               <[categorize_service_file (PosixPath.join root file) :=
                   <[relpath (PosixPath.join root file) service_dir :=
                       infos content]>
                     (default ∅ (categories !!
                        categorize_service_file (PosixPath.join root file)))]>
                 categories
           end)).
        destruct (scan_files _ _ _ _ _ _ files _) as [c1|x|].
        -- intros f e [<-|Hf] Hg He; [congruence | now apply IH].
        -- destruct IH as (f & e & Hf & H). exists f, e.
           split; [now right | exact H].
        -- exact IH.
      * destruct (stdout (error_message (PosixPath.join root file) e))
          as [x|] eqn:Hout; cbn [bind].
        -- exists file, e. repeat split; auto. now left.
        -- rewrite add_file_done. cbn [bind].
           specialize (IH Hb' categories).
           destruct (scan_files _ _ _ _ _ _ files _) as [c1|x|].
           ++ intros f e' [<-|Hf] Hg He; [|now apply IH].
              rewrite Hfs in He. injection He as <-. exact Hout.
           ++ destruct IH as (f & e' & Hf & H). exists f, e'.
              split; [now right | exact H].
           ++ exact IH.
    + specialize (IH Hb' categories).
      destruct (scan_files _ _ _ _ _ _ files _) as [c1|x|].
      * intros f e [<-|Hf] Hg He; [congruence | now apply IH].
      * destruct IH as (f & e & Hf & H). exists f, e.
        split; [now right | exact H].
      * exact IH.
Qed.

Lemma scan_dirs_outcome (walk : list (str * list str)) :
  (forall root files file content, In (root, files) walk -> In file files ->
     fs (PosixPath.join root file) = ReadText content ->
     (length (split 10 content) < budget)%nat) ->
  forall categories,
    match scan_dirs fs stdout relpath budget service_dir walk categories with
    | Done _ => quiet_errors fs stdout walk
    | Raised x =>
        exists root files file e,
          In (root, files) walk /\ In file files /\
          is_go_source file = true /\
          fs (PosixPath.join root file) = ReadError e /\
          stdout (error_message (PosixPath.join root file) e) = Some x
    | Timeout => False
    end.
Proof.
  induction walk as [|[root files] walk IH]; intros Hb categories.
  - cbn [scan_dirs]. intros r fl f e [].
  - cbn [scan_dirs].
    pose proof (scan_files_outcome root files
      (fun f c Hf => Hb root files f c (or_introl eq_refl) Hf) categories)
      as Hfiles.
    destruct (scan_files fs stdout relpath budget service_dir root files
                categories) as [c1|x|]; cbn [bind].
    + assert (Hb' : forall r fl f c, In (r, fl) walk -> In f fl ->
                fs (PosixPath.join r f) = ReadText c ->
                (length (split 10 c) < budget)%nat).
      { intros r fl f c Hin. apply Hb. now right. }
      specialize (IH Hb' c1).
      destruct (scan_dirs fs stdout relpath budget service_dir walk c1)
        as [c2|x|].
      * intros r fl f e [[= -> ->]|Hin]; [apply Hfiles | now apply IH].
      * destruct IH as (r & fl & f & e & Hin & H). exists r, fl, f, e.
        split; [now right | exact H].
      * exact IH.
    + destruct Hfiles as (f & e & Hf & H). exists root, files, f, e.
      split; [now left|]. split; [exact Hf | exact H].
    + exact Hfiles.
Qed.

End Outcome.

(** X1: the outcome of a scan, when the texts fit the budget. A file that
    cannot be read is not an error of the scan: its message is printed and
    the scan goes on. But an exception of that [print] is not caught: the
    scan returns an index exactly when the message of every source file
    that cannot be read can be printed, and otherwise it raises the
    exception of the [print] of such a message. *)
Theorem scan_outcome (fs : str -> read_result)
    (stdout : str -> option exn) (relpath : str -> str -> str)
    (budget : nat) (service_dir : str) (walk : list (str * list str)) :
  (forall root files file content, In (root, files) walk -> In file files ->
     fs (PosixPath.join root file) = ReadText content ->
     (length (split 10 content) < budget)%nat) ->
  (quiet_errors fs stdout walk <->
   exists categories,
     scan_service_directory fs stdout relpath budget service_dir walk
       = Done categories) /\
  (forall x,
     scan_service_directory fs stdout relpath budget service_dir walk
       = Raised x ->
     exists root files file e,
       In (root, files) walk /\ In file files /\ is_go_source file = true /\
       fs (PosixPath.join root file) = ReadError e /\
       stdout (error_message (PosixPath.join root file) e) = Some x) /\
  scan_service_directory fs stdout relpath budget service_dir walk
    <> Timeout.
Proof.
  intros Hb. unfold scan_service_directory.
  pose proof (scan_dirs_outcome fs stdout relpath budget service_dir walk
                Hb ∅) as Ho.
  split; [split|split].
  - intros Hq.
    apply (scan_dirs_returns fs stdout relpath budget service_dir walk Hb Hq).
  - intros [categories Hs]. now rewrite Hs in Ho.
  - intros x Hs. now rewrite Hs in Ho.
  - intros Hs. now rewrite Hs in Ho.
Qed.

Lemma scan_outcome_witness :
  exists categories,
    scan_service_directory demo_fs demo_stdout (fun p _ => p) 4 (py "svc")
      demo_walk = Done categories.
Proof.
  exact (proj1 (proj1 (scan_outcome demo_fs demo_stdout (fun p _ => p) 4
                         (py "svc") demo_walk demo_budget))
           demo_quiet).
Defined.

(** A file that cannot be read and whose name the output cannot encode:
    the extractor raises the exception of the [print]. *)
Example unprintable_path_raises :
  extract_go_functions demo_fs demo_stdout 4 (py "svc/" ++ [55296%N] ++ py ".go")
  = Raised UnicodeEncodeError.
Proof. vm_compute. reflexivity. Qed.

Example unreadable_path_reported :
  extract_go_functions demo_fs demo_stdout 4 (py "svc/gone.go") = Done [].
Proof. vm_compute. reflexivity. Qed.
